(** * better-ccusage: model-pricing resolution and cost calculation

    A shallow embedding of the pricing engine of the repository
    ([packages/internal/src/pricing.ts], class [PricingFetcher], and
    [packages/internal/src/pricing-fetch-utils.ts]) and of its callers in
    the codex, opencode and better-ccusage apps, together with the
    properties that its specification states about it and further
    properties read off the code.

    Conventions of the embedding:
    - a JavaScript [number] is an exact rational ([Q]); sums and products
      are compared with [==] ([Qeq]).  Rounding of IEEE doubles, NaN and the
      infinities are outside the model;
    - an optional field or argument ([x?: T], [T | undefined], [T | null])
      is an [option];
    - a JavaScript string is a [string] whose characters are its code
      units, all below 256 (ASCII and Latin-1); strings with other code
      units are outside the model;
    - a [Map] is an association list in insertion order; a plain object
      used as a dictionary is the list of its entries in the order in which
      [Object.entries] enumerates them: the keys that are array indices
      first, in ascending order, then the other keys in insertion order. *)

From Stdlib Require Import QArith Qminmax Lqa ZArith Lia Bool List String Ascii.
From Stdlib Require Import DecimalString.
Import ListNotations.

Set Implicit Arguments.
Set Warnings "-register-all".

(** ** Numbers *)

Module Num.

Definition number : Type := Q.

(** [a <= b], [a > b] and [a >= b] of the source, as tests. *)
Definition leb (a b : number) : bool := Qle_bool a b.
Definition gtb (a b : number) : bool := negb (Qle_bool a b).
Definition geb (a b : number) : bool := Qle_bool b a.

(** [x ?? d]. *)
Definition orElse {A : Type} (x : option A) (d : A) : A :=
  match x with
  | Some v => v
  | None => d
  end.

(** [x != null]. *)
Definition notNull {A : Type} (x : option A) : bool :=
  match x with
  | Some _ => true
  | None => false
  end.

End Num.

Import Num.

Declare Scope js_scope.
Delimit Scope js_scope with js.
Notation "a <=? b" := (leb a b) (at level 70) : js_scope.
Notation "a >? b" := (gtb a b) (at level 70) : js_scope.
Notation "a >=? b" := (geb a b) (at level 70) : js_scope.
Notation "x ?? d" := (orElse x d) (at level 45, left associativity) : js_scope.

Local Open Scope Q_scope.
Local Open Scope js_scope.

(** ** The pricing schema ([modelPricingSchema]) *)

(** One element of [tiered_pricing] ([TieredPricingConfig]). *)
Module Tier.
Record t : Type := mk {
  input_cost_per_token : number;
  output_cost_per_token : number;
  range : number * number;
  cache_read_input_token_cost : option number
}.
End Tier.

Record ModelPricing : Type := mkModelPricing {
  input_cost_per_token : option number;
  output_cost_per_token : option number;
  cache_creation_input_token_cost : option number;
  cache_read_input_token_cost : option number;
  max_tokens : option number;
  max_input_tokens : option number;
  max_output_tokens : option number;
  input_cost_per_token_above_200k_tokens : option number;
  output_cost_per_token_above_200k_tokens : option number;
  cache_creation_input_token_cost_above_200k_tokens : option number;
  cache_read_input_token_cost_above_200k_tokens : option number;
  input_cost_per_token_above_128k_tokens : option number;
  output_cost_per_token_above_128k_tokens : option number;
  tiered_pricing : option (list Tier.t)
}.

(** The record with every field absent ([{}]). *)
Definition emptyPricing : ModelPricing :=
  mkModelPricing None None None None None None None
                 None None None None None None None.

(** The [tokens] argument of the cost functions. *)
Record Tokens : Type := mkTokens {
  input_tokens : number;
  output_tokens : number;
  cache_creation_input_tokens : option number;
  cache_read_input_tokens : option number
}.

(** ** The cost calculator ([calculateCostFromPricing]) *)

Definition DEFAULT_TIERED_THRESHOLD : number := 200000.

(** [calculateTieredCost]; the source's default for [threshold] is passed
    explicitly by the callers below. *)
Definition calculateTieredCost
    (totalTokens basePrice tieredPrice : option number)
    (threshold : number) : number :=
  match totalTokens with
  | None => 0
  | Some totalTokens =>
      if totalTokens <=? 0 then 0
      else
        (* [totalTokens > threshold && tieredPrice != null] *)
        match (if totalTokens >? threshold then tieredPrice else None) with
        | Some tieredPrice =>
            let tokensBelowThreshold := Qmin totalTokens threshold in
            let tokensAboveThreshold := Qmax 0 (totalTokens - threshold) in
            let tieredCost := tokensAboveThreshold * tieredPrice in
            match basePrice with
            | Some basePrice => tieredCost + tokensBelowThreshold * basePrice
            | None => tieredCost
            end
        | None =>
            match basePrice with
            | Some basePrice => totalTokens * basePrice
            | None => 0
            end
        end
  end.

(** The result object of [calculateInputLengthTieredCost]. *)
Module TieredResult.
Record t : Type := mk {
  inputCost : number;
  outputCost : number;
  cacheReadCost : number
}.
End TieredResult.

(** [totalInputTokens >= minRange && totalInputTokens <= maxRange]. *)
Definition inRange (totalInputTokens : number) (tier : Tier.t) : bool :=
  let '(minRange, maxRange) := Tier.range tier in
  (totalInputTokens >=? minRange) && (totalInputTokens <=? maxRange).

(** The [for (const tier of tieredPricing)] loop: [applicableTier] keeps its
    initial value unless a tier contains the count, in which case the loop
    assigns it and breaks. *)
Fixpoint findApplicableTier (tieredPricing : list Tier.t)
    (totalInputTokens : number) (applicableTier : Tier.t) : Tier.t :=
  match tieredPricing with
  | [] => applicableTier
  | tier :: rest =>
      if inRange totalInputTokens tier then tier
      else findApplicableTier rest totalInputTokens applicableTier
  end.

(** [calculateInputLengthTieredCost].  After the emptiness test the array
    has a first element, so [applicableTier] starts as [tieredPricing[0]];
    the source's later [applicableTier == null] guard (with its synthetic
    tier) cannot fire on a typed array and has no counterpart here. *)
Definition calculateInputLengthTieredCost
    (totalInputTokens outputTokens cacheReadTokens : number)
    (baseInputPrice baseOutputPrice : option number)
    (tieredPricing : option (list Tier.t)) : TieredResult.t :=
  if totalInputTokens <=? 0 then TieredResult.mk 0 0 0
  else
    match tieredPricing with
    | None | Some [] =>
        let inputCost :=
          match baseInputPrice with
          | Some p => totalInputTokens * p
          | None => 0
          end in
        let outputCost :=
          match baseOutputPrice with
          | Some p => outputTokens * p
          | None => 0
          end in
        TieredResult.mk inputCost outputCost 0
    | Some ((first :: _) as tiers) =>
        let applicableTier := findApplicableTier tiers totalInputTokens first in
        TieredResult.mk
          (totalInputTokens * Tier.input_cost_per_token applicableTier)
          (outputTokens * Tier.output_cost_per_token applicableTier)
          (cacheReadTokens * (Tier.cache_read_input_token_cost applicableTier ?? 0))
    end.

(** [Array.isArray(pricing.tiered_pricing)]. *)
Definition hasTieredPricing (pricing : ModelPricing) : bool :=
  notNull (tiered_pricing pricing).

(** The four summands of the [return] statement that
    [calculateCostFromPricing] reaches, in the order in which it adds them. *)
Record Summands : Type := mkSummands {
  inputCost : number;
  outputCost : number;
  cacheCreationCost : number;
  cacheReadCost : number
}.

Definition costSummands (tokens : Tokens) (pricing : ModelPricing) : Summands :=
  if hasTieredPricing pricing then
    let tieredResult :=
      calculateInputLengthTieredCost
        (input_tokens tokens)
        (output_tokens tokens)
        (cache_read_input_tokens tokens ?? 0)
        (input_cost_per_token pricing)
        (output_cost_per_token pricing)
        (tiered_pricing pricing) in
    let cacheCreationCost :=
      calculateTieredCost
        (cache_creation_input_tokens tokens)
        (cache_creation_input_token_cost pricing)
        (cache_creation_input_token_cost_above_200k_tokens pricing)
        DEFAULT_TIERED_THRESHOLD in
    let cacheReadCost :=
      calculateTieredCost
        (cache_read_input_tokens tokens)
        (cache_read_input_token_cost pricing)
        (cache_read_input_token_cost_above_200k_tokens pricing)
        DEFAULT_TIERED_THRESHOLD in
    mkSummands (TieredResult.inputCost tieredResult)
               (TieredResult.outputCost tieredResult)
               cacheCreationCost cacheReadCost
  else
    let inputCost :=
      calculateTieredCost
        (Some (input_tokens tokens))
        (input_cost_per_token pricing)
        (input_cost_per_token_above_200k_tokens pricing)
        DEFAULT_TIERED_THRESHOLD in
    let outputCost :=
      calculateTieredCost
        (Some (output_tokens tokens))
        (output_cost_per_token pricing)
        (output_cost_per_token_above_200k_tokens pricing)
        DEFAULT_TIERED_THRESHOLD in
    let cacheCreationCost :=
      calculateTieredCost
        (cache_creation_input_tokens tokens)
        (cache_creation_input_token_cost pricing)
        (cache_creation_input_token_cost_above_200k_tokens pricing)
        DEFAULT_TIERED_THRESHOLD in
    let cacheReadCost :=
      calculateTieredCost
        (cache_read_input_tokens tokens)
        (cache_read_input_token_cost pricing)
        (cache_read_input_token_cost_above_200k_tokens pricing)
        DEFAULT_TIERED_THRESHOLD in
    mkSummands inputCost outputCost cacheCreationCost cacheReadCost.

Definition calculateCostFromPricing (tokens : Tokens) (pricing : ModelPricing)
    : number :=
  let s := costSummands tokens pricing in
  inputCost s + outputCost s + cacheCreationCost s + cacheReadCost s.

(** ** Strings *)

Module Str.

Local Open Scope string_scope.

(** [String.prototype.toLowerCase].  A character is a code unit below 256;
    among these the letters with a lower case are [A]-[Z] (65-90) and the
    Latin-1 capitals U+00C0-U+00D6 and U+00D8-U+00DE, each 32 below its
    lower case, and the function maps a string code unit by code unit. *)
Definition lowerChar (c : ascii) : ascii :=
  let n := nat_of_ascii c in
  if (Nat.leb 65 n && Nat.leb n 90)
     || (Nat.leb 192 n && Nat.leb n 214)
     || (Nat.leb 216 n && Nat.leb n 222)
  then ascii_of_nat (n + 32) else c.

Fixpoint toLowerCase (s : string) : string :=
  match s with
  | EmptyString => EmptyString
  | String c s' => String (lowerChar c) (toLowerCase s')
  end.

(** [s.startsWith(t)]. *)
Definition startsWith (s t : string) : bool := String.prefix t s.

(** [s.includes(t)]: [t] starts at some position of [s]. *)
Fixpoint includes (s t : string) : bool :=
  String.prefix t s ||
  match s with
  | EmptyString => false
  | String _ s' => includes s' t
  end.

(** [s.endsWith(t)]: some suffix of [s] is [t]. *)
Fixpoint endsWith (s t : string) : bool :=
  String.eqb s t ||
  match s with
  | EmptyString => false
  | String _ s' => endsWith s' t
  end.

End Str.

(** ** Dictionaries in insertion order ([Map], plain objects) *)

Module Dict.

Section Dict.
Variable V : Type.

Definition t : Type := list (string * V).

(** [m.get(key)] / [o[key]]. *)
Fixpoint get (m : t) (key : string) : option V :=
  match m with
  | [] => None
  | (k, v) :: rest => if String.eqb k key then Some v else get rest key
  end.

(** [m.set(key, value)]: an existing key keeps its position and takes
    the new value, a new key goes last.  So does [o[key] = value] on the
    entries of a plain object when the keys come in the enumeration order
    of another object, as in the loops over [Object.entries] that copy
    entries to a fresh object; [Object_set] is the general assignment. *)
Fixpoint set (m : t) (key : string) (value : V) : t :=
  match m with
  | [] => [(key, value)]
  | (k, v) :: rest =>
      if String.eqb k key then (k, value) :: rest
      else (k, v) :: set rest key value
  end.

(** [new Map(entries)]. *)
Definition ofEntries (entries : list (string * V)) : t :=
  fold_left (fun m kv => set m (fst kv) (snd kv)) entries [].

Definition keys (m : t) : list string := map fst m.
End Dict.

End Dict.

Definition PricingMap : Type := Dict.t ModelPricing.

(** ** The resolver ([getModelPricing]) *)

Definition DEFAULT_PROVIDER_PREFIXES : list string :=
  [ "anthropic/"; "claude-3-5-"; "claude-3-"; "claude-"; "openai/"; "azure/";
    "openrouter/openai/"; "zai/"; "streamlake/" ]%string.

(** [candidates.add(x)] on a [Set<string>], kept in insertion order. *)
Definition Set_add (candidates : list string) (x : string) : list string :=
  if existsb (String.eqb x) candidates then candidates else candidates ++ [x].

(** [createMatchingCandidates]. *)
Definition createMatchingCandidates (providerPrefixes : list string)
    (modelName : string) : list string :=
  fold_left (fun candidates prefix => Set_add candidates (prefix ++ modelName)%string)
            providerPrefixes (Set_add [] modelName).

(** First loop of [getModelPricing]: the first candidate that is a key. *)
Fixpoint directMatch (pricing : PricingMap) (candidates : list string)
    : option ModelPricing :=
  match candidates with
  | [] => None
  | candidate :: rest =>
      match Dict.get pricing candidate with
      | Some direct => Some direct
      | None => directMatch pricing rest
      end
  end.

(** The test of the second loop. *)
Definition exactOrSuffix (comparison lower : string) : bool :=
  String.eqb comparison lower || Str.endsWith comparison ("/" ++ lower)%string.

(** Second loop: the first key that equals the query or ends with
    ["/" + query], both lower-cased. *)
Fixpoint exactOrSuffixMatch (pricing : PricingMap) (lower : string)
    : option ModelPricing :=
  match pricing with
  | [] => None
  | (key, value) :: rest =>
      let comparison := Str.toLowerCase key in
      if exactOrSuffix comparison lower then Some value
      else exactOrSuffixMatch rest lower
  end.

(** The score that the third loop gives to one key. *)
Definition matchScore (comparison lower : string) : Z :=
  if Str.includes comparison lower then
    if Str.includes comparison (lower ++ "/")%string
       || Str.endsWith comparison ("/" ++ lower)%string then 100%Z
    else if Str.includes comparison lower
            && negb (Str.includes comparison "air"%string) then
      if Str.startsWith comparison "zai/"%string then 95%Z else 90%Z
    else if Str.includes comparison lower then 50%Z
    else 0%Z
  else if Str.includes lower comparison then 10%Z
  else 0%Z.

(** Third loop, from a given [bestMatch] and [bestMatchScore]. *)
Fixpoint bestMatchLoop (pricing : PricingMap) (lower : string)
    (bestMatch : option ModelPricing) (bestMatchScore : Z)
    : option ModelPricing * Z :=
  match pricing with
  | [] => (bestMatch, bestMatchScore)
  | (key, value) :: rest =>
      let comparison := Str.toLowerCase key in
      let score := matchScore comparison lower in
      if (score >? bestMatchScore)%Z
      then bestMatchLoop rest lower (Some value) score
      else bestMatchLoop rest lower bestMatch bestMatchScore
  end.

Definition fuzzyMatch (pricing : PricingMap) (lower : string)
    : option ModelPricing :=
  fst (bestMatchLoop pricing lower None 0%Z).

(** The callback that [getModelPricing] maps over the loaded dataset. *)
Definition resolvePricing (providerPrefixes : list string)
    (pricing : PricingMap) (modelName : string) : option ModelPricing :=
  match directMatch pricing (createMatchingCandidates providerPrefixes modelName) with
  | Some direct => Some direct
  | None =>
      let lower := Str.toLowerCase modelName in
      match exactOrSuffixMatch pricing lower with
      | Some value => Some value
      | None => fuzzyMatch pricing lower
      end
  end.

(** ** The fetcher ([PricingFetcher]) *)

(** [Result] of [@praha/byethrow]. *)
Inductive Result (A E : Type) : Type :=
| Success (value : A)
| Failure (error : E).
Arguments Success {A E} value.
Arguments Failure {A E} error.

Definition Result_map {A B E : Type} (f : A -> B) (r : Result A E) : Result B E :=
  match r with
  | Success a => Success (f a)
  | Failure e => Failure e
  end.

Definition Result_andThen {A B E : Type} (f : A -> Result B E) (r : Result A E)
    : Result B E :=
  match r with
  | Success a => f a
  | Failure e => Failure e
  end.

(** [new Error(message, { cause })]. *)
Record Error : Type := mkError {
  message : string;
  cause : option string
}.

(** What one invocation of [offlineLoader] settles to: the record it
    resolves with, or the reason it rejects with. *)
Inductive LoaderOutcome : Type :=
| Resolved (entries : list (string * ModelPricing))
| Rejected (reason : string).

(** The fetcher object.  [offlineLoader n] is the outcome of the loader's
    invocation number [n] (the loader is an arbitrary effectful function and
    may answer differently each time); [loaderCalls] counts the invocations
    made so far.  The logger has no influence on results and is left out. *)
Record PricingFetcher : Type := mkFetcher {
  cachedPricing : option PricingMap;
  offlineLoader : nat -> LoaderOutcome;
  providerPrefixes : list string;
  loaderCalls : nat
}.

(** [new PricingFetcher({ offlineLoader, providerPrefixes })]. *)
Definition newPricingFetcher (loader : nat -> LoaderOutcome)
    (prefixes : option (list string)) : PricingFetcher :=
  mkFetcher None loader (prefixes ?? DEFAULT_PROVIDER_PREFIXES) 0.

Definition clearCache (f : PricingFetcher) : PricingFetcher :=
  mkFetcher None (offlineLoader f) (providerPrefixes f) (loaderCalls f).

(** [ensurePricingLoaded] is an [async] function with one [await].  Its
    synchronous part either answers from the cache or invokes the loader
    and suspends on the loader's promise. *)
Inductive Suspension : Type :=
| Ready (pricing : PricingMap)
| Awaiting (outcome : LoaderOutcome).

Definition ensurePricingLoaded_start (f : PricingFetcher)
    : Suspension * PricingFetcher :=
  match cachedPricing f with
  | Some pricing => (Ready pricing, f)
  | None =>
      (Awaiting (offlineLoader f (loaderCalls f)),
       mkFetcher None (offlineLoader f) (providerPrefixes f) (S (loaderCalls f)))
  end.

(** The continuation after the [await]: a resolved loader fills the cache,
    a rejected one becomes the [Failed to load pricing data] error. *)
Definition ensurePricingLoaded_resume (f : PricingFetcher)
    (outcome : LoaderOutcome) : Result PricingMap Error * PricingFetcher :=
  match outcome with
  | Resolved entries =>
      let pricing := Dict.ofEntries entries in
      (Success pricing,
       mkFetcher (Some pricing) (offlineLoader f) (providerPrefixes f) (loaderCalls f))
  | Rejected reason =>
      (Failure (mkError "Failed to load pricing data" (Some reason)), f)
  end.

(** A call that is awaited before anything else touches the fetcher. *)
Definition ensurePricingLoaded (f : PricingFetcher)
    : Result PricingMap Error * PricingFetcher :=
  match ensurePricingLoaded_start f with
  | (Ready pricing, f') => (Success pricing, f')
  | (Awaiting outcome, f') => ensurePricingLoaded_resume f' outcome
  end.

Definition fetchModelPricing (f : PricingFetcher)
    : Result PricingMap Error * PricingFetcher :=
  ensurePricingLoaded f.

Definition getModelPricing (f : PricingFetcher) (modelName : string)
    : Result (option ModelPricing) Error * PricingFetcher :=
  let (loaded, f') := ensurePricingLoaded f in
  (Result_map (fun pricing => resolvePricing (providerPrefixes f) pricing modelName)
              loaded,
   f').

Definition getModelContextLimit (f : PricingFetcher) (modelName : string)
    : Result (option number) Error * PricingFetcher :=
  let (found, f') := getModelPricing f modelName in
  (Result_map (fun pricing =>
                 match pricing with
                 | Some p => max_input_tokens p
                 | None => None
                 end) found,
   f').

Definition calculateCostFromTokens (f : PricingFetcher) (tokens : Tokens)
    (modelName : option string) : Result number Error * PricingFetcher :=
  match modelName with
  | None => (Success 0, f)
  | Some modelName =>
      if String.eqb modelName "" then (Success 0, f)
      else
        let (found, f') := getModelPricing f modelName in
        (Result_andThen
           (fun pricing =>
              match pricing with
              | None =>
                  Failure (mkError ("Model pricing not found for " ++ modelName)%string
                                   None)
              | Some pricing => Success (calculateCostFromPricing tokens pricing)
              end)
           found,
         f')
  end.

(** ** Interleaved calls on one fetcher

    JavaScript runs one task at a time; calls interleave only at an
    [await].  A schedule is a list of events: a caller enters
    [ensurePricingLoaded] (running its synchronous part), or the loader
    promise on which a caller is suspended settles and that caller resumes. *)

Module Async.

Definition Caller : Type := nat.

Inductive Event : Type :=
| Call (c : Caller)
| Settle (c : Caller).

Record State : Type := mkState {
  fetcher : PricingFetcher;
  (** suspended callers with the outcome their loader promise will have *)
  pending : list (Caller * LoaderOutcome);
  (** what each finished call returned, oldest first *)
  returned : list (Caller * Result PricingMap Error)
}.

Definition init (f : PricingFetcher) : State := mkState f [] [].

(** Removes the first suspended call of [c], if any. *)
Fixpoint take (c : Caller) (pending : list (Caller * LoaderOutcome))
    : option (LoaderOutcome * list (Caller * LoaderOutcome)) :=
  match pending with
  | [] => None
  | (c', o) :: rest =>
      if Nat.eqb c c' then Some (o, rest)
      else
        match take c rest with
        | Some (o', rest') => Some (o', (c', o) :: rest')
        | None => None
        end
  end.

Definition step (s : State) (e : Event) : State :=
  match e with
  | Call c =>
      match ensurePricingLoaded_start (fetcher s) with
      | (Ready pricing, f') =>
          mkState f' (pending s) (returned s ++ [(c, Success pricing)])
      | (Awaiting outcome, f') =>
          mkState f' (pending s ++ [(c, outcome)]) (returned s)
      end
  | Settle c =>
      match take c (pending s) with
      | Some (outcome, rest) =>
          let (r, f') := ensurePricingLoaded_resume (fetcher s) outcome in
          mkState f' rest (returned s ++ [(c, r)])
      | None => s
      end
  end.

Definition run (s : State) (schedule : list Event) : State :=
  fold_left step schedule s.

(** Number of loads in flight. *)
Definition inFlight (s : State) : nat := List.length (pending s).

(** Calls made one after the other, each awaited before the next. *)
Definition sequential (callers : list Caller) : list Event :=
  flat_map (fun c => [Call c; Settle c]) callers.

End Async.

(** ** The dataset loader ([loadLocalPricingDataset]) *)

(** A parsed JSON value.  The fields of a [JObject] have distinct keys, as
    [JSON.parse] produces them. *)
Inductive JSON : Type :=
| JNull
| JBool (b : bool)
| JNumber (n : number)
| JString (s : string)
| JArray (items : list JSON)
| JObject (fields : list (string * JSON)).

(** How a statement or a call completes. *)
Inductive Completion (A : Type) : Type :=
| Normal (value : A)
| Throw (error : string).
Arguments Normal {A} value.
Arguments Throw {A} error.

Module Schema.

(** A valibot schema, run with [safeParse]: [Some output] on success.
    The combinators follow the library: [v.object] accepts any non-null
    value of type object and reads its declared keys only, [v.optional]
    accepts a missing key, [v.number] accepts numbers, [v.tuple] reads the
    first items of an array and [v.array] validates every item. *)
Definition t (A : Type) : Type := JSON -> option A.

Definition bind {A B : Type} (x : option A) (k : A -> option B) : option B :=
  match x with
  | Some a => k a
  | None => None
  end.

(** [v.number()]. *)
Definition number : t Num.number :=
  fun input =>
    match input with
    | JNumber n => Some n
    | _ => None
    end.

(** [input && typeof input === 'object'], the test of [v.object]. *)
Definition isObject (input : JSON) : bool :=
  match input with
  | JObject _ | JArray _ => true
  | _ => false
  end.

(** [key in input ? input[key] : undefined], for the keys of the schemas
    below (none of them is an index or a property of an array). *)
Definition entry (input : JSON) (key : string) : option JSON :=
  match input with
  | JObject fields => Dict.get fields key
  | _ => None
  end.

(** An entry declared [v.optional(s)]: a missing key is accepted. *)
Definition optional {A : Type} (s : t A) (input : JSON) (key : string)
    : option (option A) :=
  match entry input key with
  | None => Some None
  | Some value => option_map Some (s value)
  end.

(** An entry declared with a plain schema: the key must be there. *)
Definition required {A : Type} (s : t A) (input : JSON) (key : string)
    : option A :=
  match entry input key with
  | None => None
  | Some value => s value
  end.

(** [v.tuple([v.number(), v.number()])]: further items are dropped. *)
Definition range : t (Num.number * Num.number) :=
  fun input =>
    match input with
    | JArray (a :: b :: _) =>
        bind (number a) (fun a' => bind (number b) (fun b' => Some (a', b')))
    | _ => None
    end.

(** [v.array(s)]. *)
Fixpoint items {A : Type} (s : t A) (l : list JSON) : option (list A) :=
  match l with
  | [] => Some []
  | x :: rest =>
      bind (s x) (fun x' => bind (items s rest) (fun rest' => Some (x' :: rest')))
  end.

Definition array {A : Type} (s : t A) : t (list A) :=
  fun input =>
    match input with
    | JArray l => items s l
    | _ => None
    end.

(** The element schema of [tiered_pricing]. *)
Definition tier : t Tier.t :=
  fun input =>
    if isObject input then
      bind (required number input "input_cost_per_token") (fun i =>
      bind (required number input "output_cost_per_token") (fun o =>
      bind (required range input "range") (fun r =>
      bind (optional number input "cache_read_input_token_cost") (fun c =>
      Some (Tier.mk i o r c)))))
    else None.

(** [modelPricingSchema]. *)
Definition modelPricingSchema : t ModelPricing :=
  fun input =>
    if isObject input then
      bind (optional number input "input_cost_per_token") (fun f1 =>
      bind (optional number input "output_cost_per_token") (fun f2 =>
      bind (optional number input "cache_creation_input_token_cost") (fun f3 =>
      bind (optional number input "cache_read_input_token_cost") (fun f4 =>
      bind (optional number input "max_tokens") (fun f5 =>
      bind (optional number input "max_input_tokens") (fun f6 =>
      bind (optional number input "max_output_tokens") (fun f7 =>
      bind (optional number input "input_cost_per_token_above_200k_tokens") (fun f8 =>
      bind (optional number input "output_cost_per_token_above_200k_tokens") (fun f9 =>
      bind (optional number input "cache_creation_input_token_cost_above_200k_tokens") (fun f10 =>
      bind (optional number input "cache_read_input_token_cost_above_200k_tokens") (fun f11 =>
      bind (optional number input "input_cost_per_token_above_128k_tokens") (fun f12 =>
      bind (optional number input "output_cost_per_token_above_128k_tokens") (fun f13 =>
      bind (optional (array tier) input "tiered_pricing") (fun f14 =>
      Some (mkModelPricing f1 f2 f3 f4 f5 f6 f7 f8 f9 f10 f11 f12 f13 f14)))))))))))))))
    else None.

End Schema.

Module Loader.

Local Open Scope string_scope.

Definition PricingDataset : Type := Dict.t ModelPricing.

Definition createPricingDataset : PricingDataset := [].

(** What the loader reads from its surroundings: the directory of the
    module ([dirname(fileURLToPath(import.meta.url))], which may throw),
    the working directory ([cwd()], which throws when the directory is
    gone), [readFileSync] ([None] when it throws) and [JSON.parse] ([None]
    when it throws). *)
Record Env : Type := mkEnv {
  currentModuleDir : Completion string;
  cwd : Completion string;
  readFileSync : string -> option string;
  JSON_parse : string -> option JSON
}.

(** [join(dir, name)]. *)
Definition join (dir name : string) : string := dir ++ "/" ++ name.

(** The white space that [trim] removes, among 8-bit characters. *)
Definition isWhiteSpace (c : ascii) : bool :=
  let n := nat_of_ascii c in
  existsb (Nat.eqb n) [9; 10; 11; 12; 13; 32; 160]%nat.

(** [s.trim() === '']. *)
Fixpoint trimsToEmpty (s : string) : bool :=
  match s with
  | EmptyString => true
  | String c s' => isWhiteSpace c && trimsToEmpty s'
  end.

(** The loop over [possiblePaths]: the first path that can be read. *)
Fixpoint readFirst (read : string -> option string) (possiblePaths : list string)
    : option string :=
  match possiblePaths with
  | [] => None
  | path :: rest =>
      match read path with
      | Some data => Some data
      | None => readFirst read rest
      end
  end.

(** The decimal index of an array or string position, as a key. *)
Definition indexKey (i : nat) : string :=
  NilEmpty.string_of_uint (Nat.to_uint i).

Fixpoint indexed {A : Type} (i : nat) (l : list A) : list (string * A) :=
  match l with
  | [] => []
  | x :: rest => (indexKey i, x) :: indexed (S i) rest
  end.

Fixpoint characters (s : string) : list JSON :=
  match s with
  | EmptyString => []
  | String c s' => JString (String c EmptyString) :: characters s'
  end.

(** [Object.entries(value)] on whatever [JSON.parse] returned. *)
Definition Object_entries (value : JSON) : Completion (list (string * JSON)) :=
  match value with
  | JNull => Throw "TypeError: Cannot convert undefined or null to object"
  | JBool _ | JNumber _ => Normal []
  | JString s => Normal (indexed 0 (characters s))
  | JArray l => Normal (indexed 0 l)
  | JObject fields => Normal fields
  end.

(** [typeof modelData !== 'object'] (with the [null] test before it). *)
Definition notAnObject (modelData : JSON) : bool :=
  match modelData with
  | JObject _ | JArray _ => false
  | _ => true
  end.

(** The loop over the entries of the parsed file. *)
Fixpoint collect (entries : list (string * JSON)) (dataset : PricingDataset)
    : PricingDataset :=
  match entries with
  | [] => dataset
  | (modelName, modelData) :: rest =>
      if notAnObject modelData then collect rest dataset
      else
        match Schema.modelPricingSchema modelData with
        | None => collect rest dataset
        | Some output => collect rest (Dict.set dataset modelName output)
        end
  end.

(** The body of the outer [try] block.  Both paths are built, and so
    [cwd()] is called, before anything is read. *)
Definition loadBody (env : Env) : Completion PricingDataset :=
  match currentModuleDir env with
  | Throw e => Throw e
  | Normal currentModuleDir =>
      match cwd env with
      | Throw e => Throw e
      | Normal workingDir =>
          let possiblePaths :=
            [ join currentModuleDir "model_prices_and_context_window.json";
              join workingDir "model_prices_and_context_window.json" ] in
          match readFirst (readFileSync env) possiblePaths with
          | None =>
              Throw "Could not find model_prices_and_context_window.json"
          | Some rawData =>
              if trimsToEmpty rawData then
                Throw "Could not find model_prices_and_context_window.json"
              else
                match JSON_parse env rawData with
                | None => Throw "SyntaxError"
                | Some jsonDataset =>
                    match Object_entries jsonDataset with
                    | Throw e => Throw e
                    | Normal entries =>
                        Normal (collect entries createPricingDataset)
                    end
                end
          end
      end
  end.

(** [loadLocalPricingDataset]: the [catch] clause warns and returns an
    empty dataset. *)
Definition loadLocalPricingDataset (env : Env) : Completion PricingDataset :=
  match loadBody env with
  | Normal dataset => Normal dataset
  | Throw _ => Normal createPricingDataset
  end.

(** The loop of [filterPricingDataset], from the [filtered] object built
    so far. *)
Fixpoint filterInto (entries : list (string * ModelPricing))
    (predicate : string -> ModelPricing -> bool) (filtered : PricingDataset)
    : PricingDataset :=
  match entries with
  | [] => filtered
  | (modelName, pricing) :: rest =>
      if predicate modelName pricing
      then filterInto rest predicate (Dict.set filtered modelName pricing)
      else filterInto rest predicate filtered
  end.

(** [filterPricingDataset]. *)
Definition filterPricingDataset (dataset : PricingDataset)
    (predicate : string -> ModelPricing -> bool) : PricingDataset :=
  filterInto dataset predicate createPricingDataset.

End Loader.

(** ** Reference definitions, written from the specification's words *)

Module Reference.

(** Threshold-tiered cost of one token category: 0 below one token; base
    rate up to the threshold plus above-rate on the excess when the count
    exceeds the threshold and an above-rate exists; otherwise the base
    rate, or nothing. *)
Definition tieredCost (t : number) (r r2 : option number) (threshold : number)
    : number :=
  if t <=? 0 then 0
  else if (t >? threshold) && notNull r2 then
    Qmin t threshold * (r ?? 0) + Qmax 0 (t - threshold) * (r2 ?? 0)
  else if notNull r then t * (r ?? 0)
  else 0.


(** [min <= n <= max] for the range of a tier. *)
Definition contains (n : number) (tier : Tier.t) : Prop :=
  fst (Tier.range tier) <= n /\ n <= snd (Tier.range tier).

(** The fuzzy score of a lower-cased key [k] against the lower-cased
    query [m]. *)
Definition score (k m : string) : Z :=
  if Str.includes k (m ++ "/")%string || Str.endsWith k ("/" ++ m)%string
  then 100%Z
  else if Str.includes k m && negb (Str.includes k "air"%string)
          && Str.startsWith k "zai/"%string
  then 95%Z
  else if Str.includes k m && negb (Str.includes k "air"%string) then 90%Z
  else if Str.includes k m then 50%Z
  else if Str.includes m k then 10%Z
  else 0%Z.

(** The score of one dataset entry: that of its lower-cased key. *)
Definition keyScore (m : string) (kv : string * ModelPricing) : Z :=
  score (Str.toLowerCase (fst kv)) m.

(** The largest score that a key of the dataset attains (0 when empty). *)
Definition maxScore (pricing : PricingMap) (m : string) : Z :=
  fold_right (fun kv acc => Z.max (keyScore m kv) acc) 0%Z pricing.

(** The record of the first key, in dataset order, with a given score. *)
Definition firstWithScore (pricing : PricingMap) (m : string) (s : Z)
    : option ModelPricing :=
  option_map snd (find (fun kv => Z.eqb (keyScore m kv) s) pricing).

(** Fuzzy phase: nothing when the best score is 0, else the first key
    with the best score. *)
Definition fuzzy (pricing : PricingMap) (m : string) : option ModelPricing :=
  let best := maxScore pricing m in
  if Z.eqb best 0 then None else firstWithScore pricing m best.

(** Phase 2: the key, lower-cased, equals the lower-cased query or ends
    with ["/"] followed by it. *)
Definition suffixHit (key lower : string) : Prop :=
  Str.toLowerCase key = lower
  \/ exists before, Str.toLowerCase key = (before ++ "/" ++ lower)%string.

(** Dataset loader: the entries that are objects and pass validation,
    in source order, with their validated records. *)
Fixpoint validEntries (entries : list (string * JSON))
    : list (string * ModelPricing) :=
  match entries with
  | [] => []
  | (name, data) :: rest =>
      match (if Schema.isObject data then Schema.modelPricingSchema data
             else None) with
      | Some record => (name, record) :: validEntries rest
      | None => validEntries rest
      end
  end.

End Reference.

(** ** Fixtures taken from the tests of [pricing.ts] *)

Module Fixture.

(** The [kat-coder-pro-v1] record of the range-tier tests. *)
Definition katTier1 : Tier.t := Tier.mk 6e-7 2.4e-6 (0, 32000) (Some 1.2e-7).
Definition katTier2 : Tier.t := Tier.mk 9e-7 3.6e-6 (32000, 128000) (Some 1.8e-7).
Definition katTier3 : Tier.t := Tier.mk 1.5e-6 6e-6 (128000, 256000) (Some 3e-7).

Definition katCoderPro : ModelPricing :=
  mkModelPricing (Some 6e-7) (Some 2.4e-6) None (Some 1.2e-7) None None None
                 None None None None None None
                 (Some [katTier1; katTier2; katTier3]).

(** Tokens of the tier-2 test. *)
Definition tier2Tokens : Tokens := mkTokens 50000 10000 None (Some 5000).

(** A record with threshold rates and an empty [tiered_pricing] array. *)
Definition emptyTiers : ModelPricing :=
  mkModelPricing (Some 3e-6) (Some 1.5e-5) None None None None None
                 (Some 6e-6) (Some 2.25e-5) None None None None
                 (Some []).


(** A parsed source with one well-formed entry, one entry whose numeric
    fields have the wrong type, and one entry that is not an object. *)
Definition wellFormed : JSON :=
  JObject [ ("input_cost_per_token"%string, JNumber 1.25e-6);
            ("output_cost_per_token"%string, JNumber 1e-5);
            ("cache_read_input_token_cost"%string, JNumber 1.25e-7);
            ("litellm_provider"%string, JString "openai") ].

Definition wrongTyped : JSON :=
  JObject [ ("input_cost_per_token"%string, JString "1.25e-6");
            ("output_cost_per_token"%string, JNull) ].

Definition parsedSource : list (string * JSON) :=
  [ ("gpt-5"%string, wellFormed);
    ("broken"%string, wrongTyped);
    ("sample_spec"%string, JString "see the documentation") ].

Definition gpt5 : ModelPricing :=
  mkModelPricing (Some 1.25e-6) (Some 1e-5) None (Some 1.25e-7) None None None
                 None None None None None None None.

(** Surroundings in which only the copy in the working directory exists. *)
Definition sourceEnv : Loader.Env :=
  Loader.mkEnv
    (Normal "/app/dist"%string)
    (Normal "/home/user"%string)
    (fun path =>
       if String.eqb path "/home/user/model_prices_and_context_window.json"
       then Some "{ three entries }"%string
       else None)
    (fun raw =>
       if String.eqb raw "{ three entries }" then Some (JObject parsedSource)
       else None).

(** A loader whose file changes between its first and second invocation. *)
Definition changingLoader (invocation : nat) : LoaderOutcome :=
  match invocation with
  | O => Resolved [("gpt-5"%string, gpt5)]
  | _ => Resolved [("gpt-5"%string, gpt5); ("kat-coder-pro-v1"%string, katCoderPro)]
  end.

End Fixture.

(** ** Callers of the fetcher *)

(** [PricingFetcher.prototype[Symbol.dispose]]. *)
Definition dispose (f : PricingFetcher) : PricingFetcher := clearCache f.

(** The array index that a property key denotes, if any: a decimal numeral
    without a leading zero, at most 2^32 - 2. *)
Definition digitValue (c : ascii) : option N :=
  let n := N_of_ascii c in
  if (N.leb 48 n && N.leb n 57)%bool then Some (n - 48)%N else None.

Fixpoint digitsValue (s : string) (acc : N) : option N :=
  match s with
  | EmptyString => Some acc
  | String c rest =>
      match digitValue c with
      | Some d => digitsValue rest (10 * acc + d)%N
      | None => None
      end
  end.

Definition arrayIndex (key : string) : option N :=
  match key with
  | EmptyString => None
  | String "0"%char (String _ _) => None
  | String _ _ =>
      match digitsValue key 0%N with
      | Some i => if N.leb i 4294967294%N then Some i else None
      | None => None
      end
  end.

(** The own keys of an ordinary object enumerate with the array indices
    first, in ascending order, then the other strings in the order in which
    they were created.  [enumeratesBefore new old]: a key created now, of
    index [new], is listed before an existing key of index [old]. *)
Definition enumeratesBefore (new old : option N) : bool :=
  match new, old with
  | Some i, Some j => N.ltb i j
  | Some _, None => true
  | None, _ => false
  end.

(** The place of a key that the object does not have yet. *)
Fixpoint Object_define {V : Type} (o : Dict.t V) (key : string) (value : V)
    : Dict.t V :=
  match o with
  | [] => [(key, value)]
  | (k, v) :: rest =>
      if enumeratesBefore (arrayIndex key) (arrayIndex k)
      then (key, value) :: (k, v) :: rest
      else (k, v) :: Object_define rest key value
  end.

(** [o[key] = value] on an ordinary object, listed in the order in which
    [Object.entries] and the spread syntax enumerate it: an existing key
    keeps its place and takes the new value, a new key takes the place that
    the enumeration order gives it. *)
Definition Object_set {V : Type} (o : Dict.t V) (key : string) (value : V)
    : Dict.t V :=
  if existsb (String.eqb key) (Dict.keys o)
  then Dict.set o key value
  else Object_define o key value.

(** The spread [...b] in an object literal whose properties so far are
    [a]: the properties of [b] are set on the new object one after the
    other, so [b] wins on a shared key, and the keys of the result enumerate
    in the order of an ordinary object (array indices first, the other keys
    of [a] before the new ones of [b]).  [{ ...x, ...y }] is
    [Object_spread (Object_spread [] x) y]. *)
Definition Object_spread {V : Type} (a b : Dict.t V) : Dict.t V :=
  fold_left (fun o kv => Object_set o (fst kv) (snd kv)) b a.

(** [apps/better-ccusage/src/_macro.ts] and [_pricing-fetcher.ts]. *)
Module Ccusage.

Definition CCUSAGE_PROVIDER_PREFIXES : list string :=
  [ "anthropic/"; "claude-3-5-"; "claude-3-"; "claude-"; "openrouter/openai/";
    "zai/"; "deepseek/"; "dashscope/" ]%string.

(** [prefetchCcusagePricing] of [_pricing-fetcher.ts]: the prefetched
    Claude, GLM and Kat records merged by spreading, in that order. *)
Definition prefetchCcusagePricing
    (claudePricing glmPricing katPricing : Dict.t ModelPricing)
    : Dict.t ModelPricing :=
  Object_spread (Object_spread (Object_spread [] claudePricing) glmPricing)
                katPricing.

(** [new CcusagePricingFetcher()]: its loader answers every invocation with
    the record prefetched when the module was loaded. *)
Definition CcusagePricingFetcher (prefetched : Dict.t ModelPricing)
    (prefixes : option (list string)) : PricingFetcher :=
  newPricingFetcher (fun _ => Resolved prefetched) prefixes.

End Ccusage.


(** [apps/codex/src/pricing.ts]. *)
Module Codex.



(** The [ModelPricing] of the codex app ([_types.ts]). *)
Record ModelPricing : Type := mkModelPricing {
  inputCostPerMToken : number;
  cachedInputCostPerMToken : number;
  outputCostPerMToken : number
}.

Section PerMillion.

(** [MILLION] of [_consts.ts]. *)
Variable MILLION : number.





End PerMillion.

End Codex.

(** [apps/opencode/src/cost-utils.ts]. *)
Module OpenCode.

Definition MODEL_ALIASES : Dict.t string :=
  [ ("gemini-3-pro-high"%string, "gemini-3-pro-preview"%string);
    ("gemini-2.5-pro"%string, "gemini-2.5-pro-preview"%string) ].

(** [MODEL_ALIASES] is an object literal, so a lookup also finds what it
    inherits from [Object.prototype]: under these names it yields a function
    or an object instead of a string. *)
Definition Object_prototype_keys : list string :=
  [ "constructor"; "__defineGetter__"; "__defineSetter__"; "hasOwnProperty";
    "__lookupGetter__"; "__lookupSetter__"; "isPrototypeOf";
    "propertyIsEnumerable"; "toString"; "valueOf"; "__proto__";
    "toLocaleString" ]%string.

(** [resolveModelName]: [MODEL_ALIASES[model] ?? model].  [None] stands for
    the inherited, non-string value. *)
Definition resolveModelName (model : string) : option string :=
  match Dict.get MODEL_ALIASES model with
  | Some alias => Some alias
  | None =>
      if existsb (String.eqb model) Object_prototype_keys then None
      else Some model
  end.

(** [LoadedUsageEntry]; the timestamp is the number of its [Date]. *)
Record LoadedUsageEntry : Type := mkEntry {
  timestamp : number;
  sessionId : string;
  model : string;
  provider : string;
  inputTokens : number;
  outputTokens : number;
  cacheCreationTokens : number;
  cacheReadTokens : number;
  cost : number
}.

(** [calculateCostForEntry].  It is defined where [resolveModelName]
    returns a string, as its type promises. *)
Definition calculateCostForEntry (entry : LoadedUsageEntry)
    (fetcher : PricingFetcher) : option (number * PricingFetcher) :=
  match resolveModelName (model entry) with
  | None => None
  | Some modelName =>
      let (result, fetcher') :=
        calculateCostFromTokens fetcher
          (mkTokens (inputTokens entry) (outputTokens entry)
                    (Some (cacheCreationTokens entry))
                    (Some (cacheReadTokens entry)))
          (Some modelName) in
      Some (match result with
            | Success value => value
            | Failure _ => 0
            end,
            fetcher')
  end.

End OpenCode.

(** ** Preconditions of the cost properties *)

Module Rates.

(** An optional rate that, when present, is not negative. *)
Definition nonNegative (rate : option number) : Prop :=
  match rate with
  | Some r => 0 <= r
  | None => True
  end.

Definition tierNonNegative (tier : Tier.t) : Prop :=
  0 <= Tier.input_cost_per_token tier
  /\ 0 <= Tier.output_cost_per_token tier
  /\ nonNegative (Tier.cache_read_input_token_cost tier).

(** Every rate that the cost calculator reads is non-negative. *)
Definition pricingNonNegative (pricing : ModelPricing) : Prop :=
  nonNegative (input_cost_per_token pricing)
  /\ nonNegative (output_cost_per_token pricing)
  /\ nonNegative (cache_creation_input_token_cost pricing)
  /\ nonNegative (cache_read_input_token_cost pricing)
  /\ nonNegative (input_cost_per_token_above_200k_tokens pricing)
  /\ nonNegative (output_cost_per_token_above_200k_tokens pricing)
  /\ nonNegative (cache_creation_input_token_cost_above_200k_tokens pricing)
  /\ nonNegative (cache_read_input_token_cost_above_200k_tokens pricing)
  /\ match tiered_pricing pricing with
     | Some tiers => Forall tierNonNegative tiers
     | None => True
     end.

Definition tokensNonNegative (tokens : Tokens) : Prop :=
  0 <= input_tokens tokens
  /\ 0 <= output_tokens tokens
  /\ nonNegative (cache_creation_input_tokens tokens)
  /\ nonNegative (cache_read_input_tokens tokens).

End Rates.

(** Number of calls that a schedule starts. *)
Fixpoint callsStarted (schedule : list Async.Event) : nat :=
  match schedule with
  | [] => 0%nat
  | Async.Call _ :: rest => S (callsStarted rest)
  | Async.Settle _ :: rest => callsStarted rest
  end.

(** What a loader that resolves with [entries] at every invocation keeps
    true of a state: suspended calls await [entries], finished calls
    returned the dataset built from [entries], and the cache is empty or
    holds that dataset. *)
Definition loaderStable (entries : list (string * ModelPricing))
    (s : Async.State) : Prop :=
  (forall n, offlineLoader (Async.fetcher s) n = Resolved entries)
  /\ Forall (fun co => snd co = Resolved entries) (Async.pending s)
  /\ Forall (fun cr => snd cr = Success (Dict.ofEntries entries))
            (Async.returned s)
  /\ (cachedPricing (Async.fetcher s) = None
      \/ cachedPricing (Async.fetcher s) = Some (Dict.ofEntries entries)).

(** The keys that [modelPricingSchema] declares with [v.number()]. *)
Definition numericKeys : list string :=
  [ "input_cost_per_token"; "output_cost_per_token";
    "cache_creation_input_token_cost"; "cache_read_input_token_cost";
    "max_tokens"; "max_input_tokens"; "max_output_tokens";
    "input_cost_per_token_above_200k_tokens";
    "output_cost_per_token_above_200k_tokens";
    "cache_creation_input_token_cost_above_200k_tokens";
    "cache_read_input_token_cost_above_200k_tokens";
    "input_cost_per_token_above_128k_tokens";
    "output_cost_per_token_above_128k_tokens" ]%string.

(** All the keys that [modelPricingSchema] declares. *)
Definition declaredKeys : list string :=
  numericKeys ++ [ "tiered_pricing"%string ].

(** [predicate(modelName, pricing)] on an entry. *)
Definition keeps (predicate : string -> ModelPricing -> bool)
    (entry : string * ModelPricing) : bool :=
  predicate (fst entry) (snd entry).

(** * Properties *)

(** ** Tests on numbers *)

Lemma leb_true (a b : number) : (a <=? b) = true <-> a <= b.
Proof. unfold leb. apply Qle_bool_iff. Qed.

Lemma leb_false (a b : number) : (a <=? b) = false <-> b < a.
Proof.
  unfold leb. split; intro H.
  - apply Qnot_le_lt. intro Hle. apply Qle_bool_iff in Hle. congruence.
  - destruct (Qle_bool a b) eqn:E; [ | reflexivity ].
    apply Qle_bool_iff in E. exfalso. exact (Qlt_not_le _ _ H E).
Qed.

Lemma gtb_true (a b : number) : (a >? b) = true <-> b < a.
Proof. unfold gtb. rewrite negb_true_iff. apply leb_false. Qed.

Lemma gtb_false (a b : number) : (a >? b) = false <-> a <= b.
Proof. unfold gtb. rewrite negb_false_iff. apply leb_true. Qed.

Lemma geb_true (a b : number) : (a >=? b) = true <-> b <= a.
Proof. unfold geb. apply Qle_bool_iff. Qed.

Lemma inRange_contains (n : number) (tier : Tier.t) :
  inRange n tier = true <-> Reference.contains n tier.
Proof.
  unfold inRange, Reference.contains.
  destruct (Tier.range tier) as [lo hi]. simpl.
  rewrite andb_true_iff, geb_true, leb_true. tauto.
Qed.

(** Turns the tests of a goal into facts about the rationals. *)
Ltac tests :=
  repeat match goal with
         | H : (_ <=? _) = true |- _ => apply leb_true in H
         | H : (_ <=? _) = false |- _ => apply leb_false in H
         | H : (_ >? _) = true |- _ => apply gtb_true in H
         | H : (_ >? _) = false |- _ => apply gtb_false in H
         end.

(** ** Threshold-tiered cost *)

Lemma calculateTieredCost_absent (basePrice tieredPrice : option number)
    (threshold : number) :
  calculateTieredCost None basePrice tieredPrice threshold = 0.
Proof. reflexivity. Qed.

Lemma calculateTieredCost_nonpositive (t : number)
    (basePrice tieredPrice : option number) (threshold : number) :
  t <= 0 -> calculateTieredCost (Some t) basePrice tieredPrice threshold = 0.
Proof.
  intro H. unfold calculateTieredCost.
  apply leb_true in H. now rewrite H.
Qed.

Lemma calculateTieredCost_reference (t : number) (r r2 : option number)
    (threshold : number) :
  calculateTieredCost (Some t) r r2 threshold
  == Reference.tieredCost t r r2 threshold.
Proof.
  unfold calculateTieredCost, Reference.tieredCost.
  destruct (t <=? 0); [ reflexivity | ].
  destruct (t >? threshold), r2 as [a|], r as [b|]; simpl; ring.
Qed.

(** C3.  For every token count, optional base rate, optional above-threshold
    rate and threshold, [calculateTieredCost] agrees with the piecewise
    reference of the specification; a count equal to a positive threshold is
    billed at the base rate only, and one token more adds exactly one token
    at the above-threshold rate.  The default threshold is 200000. *)
Theorem calculateTieredCost_piecewise :
  (forall t r r2 threshold,
      calculateTieredCost (Some t) r r2 threshold
      == Reference.tieredCost t r r2 threshold)
  /\ (forall r r2 threshold,
         0 < threshold ->
         calculateTieredCost (Some threshold) (Some r) r2 threshold
         == threshold * r)
  /\ (forall r r2 threshold,
         0 <= threshold ->
         calculateTieredCost (Some (threshold + 1)) (Some r) (Some r2) threshold
         == threshold * r + 1 * r2)
  /\ DEFAULT_TIERED_THRESHOLD == 200000.
Proof.
  split; [ exact calculateTieredCost_reference | ].
  split; [ | split; [ | reflexivity ] ].
  - intros r r2 threshold Hpos. unfold calculateTieredCost.
    destruct (threshold <=? 0) eqn:E0; tests; [ lra | ].
    destruct (threshold >? threshold) eqn:E1; tests; [ lra | ].
    reflexivity.
  - intros r r2 threshold Hpos. unfold calculateTieredCost.
    destruct (threshold + 1 <=? 0) eqn:E0; tests; [ lra | ].
    destruct (threshold + 1 >? threshold) eqn:E1; tests; [ | lra ].
    rewrite Q.min_r by lra. rewrite Q.max_r by lra. ring.
Qed.

Lemma calculateTieredCost_piecewise_witness :
  calculateTieredCost (Some 200000) (Some 3e-6) (Some 6e-6) 200000
  == 200000 * 3e-6
  /\ calculateTieredCost (Some (200000 + 1)) (Some 3e-6) (Some 6e-6) 200000
     == 200000 * 3e-6 + 1 * 6e-6.
Proof.
  destruct calculateTieredCost_piecewise as [_ [Hat [Hnext _]]].
  split.
  - apply (Hat 3e-6 (Some 6e-6) 200000). reflexivity.
  - apply (Hnext 3e-6 6e-6 200000). discriminate.
Defined.

(** ** Range tiers *)

Lemma findApplicableTier_first_match (tiers : list Tier.t) (n : number)
    (default : Tier.t) :
  (exists before after,
      tiers = before ++ findApplicableTier tiers n default :: after
      /\ Reference.contains n (findApplicableTier tiers n default)
      /\ Forall (fun t => ~ Reference.contains n t) before)
  \/ (Forall (fun t => ~ Reference.contains n t) tiers
      /\ findApplicableTier tiers n default = default).
Proof.
  induction tiers as [|tier rest IH]; simpl.
  - right. split; [ constructor | reflexivity ].
  - destruct (inRange n tier) eqn:E.
    + left. exists [], rest. split; [ reflexivity | ].
      split; [ now apply inRange_contains | constructor ].
    + assert (Hout : ~ Reference.contains n tier).
      { intro H. apply inRange_contains in H. congruence. }
      destruct IH as [(before & after & Heq & Hin & Hbefore) | [Hnone Hdef]].
      * left. exists (tier :: before), after.
        split; [ simpl; now rewrite <- Heq | ].
        split; [ exact Hin | now constructor ].
      * right. split; [ now constructor | exact Hdef ].
Qed.

Lemma calculateInputLengthTieredCost_tiers (n out cr : number)
    (bi bo : option number) (first : Tier.t) (rest : list Tier.t) :
  0 < n ->
  let selected := findApplicableTier (first :: rest) n first in
  calculateInputLengthTieredCost n out cr bi bo (Some (first :: rest))
  = TieredResult.mk (n * Tier.input_cost_per_token selected)
                    (out * Tier.output_cost_per_token selected)
                    (cr * (Tier.cache_read_input_token_cost selected ?? 0)).
Proof.
  intros Hpos selected. unfold calculateInputLengthTieredCost.
  apply leb_false in Hpos. rewrite Hpos. reflexivity.
Qed.

(** C6.  In range-tiered mode the tier that prices a positive input count
    is the first one, in list order, whose range contains the count, both
    bounds included; when no range contains it, it is the first tier of the
    list.  With ranges [0, 32000] and [32000, 128000], 32000 selects the
    first tier and 32001 the second. *)
Theorem applicable_tier_first_containing_range :
  (forall (first : Tier.t) (rest : list Tier.t) (n : number),
      let tiers := first :: rest in
      let selected := findApplicableTier tiers n first in
      ((exists before after,
           tiers = before ++ selected :: after
           /\ Reference.contains n selected
           /\ Forall (fun t => ~ Reference.contains n t) before)
       \/ (Forall (fun t => ~ Reference.contains n t) tiers
           /\ selected = first))
      /\ (forall out cr bi bo,
             0 < n ->
             calculateInputLengthTieredCost n out cr bi bo (Some tiers)
             = TieredResult.mk
                 (n * Tier.input_cost_per_token selected)
                 (out * Tier.output_cost_per_token selected)
                 (cr * (Tier.cache_read_input_token_cost selected ?? 0))))
  /\ findApplicableTier [Fixture.katTier1; Fixture.katTier2] 32000 Fixture.katTier1
     = Fixture.katTier1
  /\ findApplicableTier [Fixture.katTier1; Fixture.katTier2] 32001 Fixture.katTier1
     = Fixture.katTier2.
Proof.
  split; [ | split; reflexivity ].
  intros first rest n tiers selected. split.
  - apply findApplicableTier_first_match.
  - intros out cr bi bo Hpos.
    now apply calculateInputLengthTieredCost_tiers.
Qed.

Lemma applicable_tier_first_containing_range_witness :
  calculateInputLengthTieredCost 32001 0 0 None None
    (Some [Fixture.katTier1; Fixture.katTier2])
  = TieredResult.mk (32001 * 9e-7) (0 * 3.6e-6) (0 * 1.8e-7).
Proof.
  destruct applicable_tier_first_containing_range as [H _].
  destruct (H Fixture.katTier1 [Fixture.katTier2] 32001) as [_ Hcost].
  apply (Hcost 0 0 None None). reflexivity.
Defined.

(** ** The summands of [calculateCostFromPricing] *)

Lemma costSummands_cache (tokens : Tokens) (pricing : ModelPricing) :
  cacheCreationCost (costSummands tokens pricing)
  = calculateTieredCost (cache_creation_input_tokens tokens)
      (cache_creation_input_token_cost pricing)
      (cache_creation_input_token_cost_above_200k_tokens pricing)
      DEFAULT_TIERED_THRESHOLD
  /\ cacheReadCost (costSummands tokens pricing)
     = calculateTieredCost (cache_read_input_tokens tokens)
         (cache_read_input_token_cost pricing)
         (cache_read_input_token_cost_above_200k_tokens pricing)
         DEFAULT_TIERED_THRESHOLD.
Proof.
  unfold costSummands. destruct (hasTieredPricing pricing); split; reflexivity.
Qed.

(** C10.  When [tiered_pricing] is an array and [input_tokens <= 0], the
    input and the output summands are both 0, whatever the output count,
    and the total is the threshold-tiered cache-creation cost plus the
    threshold-tiered cache-read cost at the record's top-level rates. *)
Theorem nonpositive_input_zeroes_input_and_output
    (tokens : Tokens) (pricing : ModelPricing) (tiers : list Tier.t) :
  tiered_pricing pricing = Some tiers ->
  input_tokens tokens <= 0 ->
  inputCost (costSummands tokens pricing) = 0
  /\ outputCost (costSummands tokens pricing) = 0
  /\ calculateCostFromPricing tokens pricing
     == calculateTieredCost (cache_creation_input_tokens tokens)
          (cache_creation_input_token_cost pricing)
          (cache_creation_input_token_cost_above_200k_tokens pricing)
          DEFAULT_TIERED_THRESHOLD
        + calculateTieredCost (cache_read_input_tokens tokens)
            (cache_read_input_token_cost pricing)
            (cache_read_input_token_cost_above_200k_tokens pricing)
            DEFAULT_TIERED_THRESHOLD.
Proof.
  intros Htiers Hle.
  unfold calculateCostFromPricing, costSummands, hasTieredPricing.
  rewrite Htiers. simpl.
  unfold calculateInputLengthTieredCost.
  apply leb_true in Hle. rewrite Hle. simpl.
  split; [ reflexivity | split; [ reflexivity | ring ] ].
Qed.

Lemma nonpositive_input_zeroes_input_and_output_witness :
  outputCost (costSummands (mkTokens 0 5000 (Some 1000) (Some 2000))
                           Fixture.katCoderPro) = 0
  /\ calculateCostFromPricing (mkTokens 0 5000 (Some 1000) (Some 2000))
       Fixture.katCoderPro
     == 2000 * 1.2e-7.
Proof.
  destruct (@nonpositive_input_zeroes_input_and_output
              (mkTokens 0 5000 (Some 1000) (Some 2000)) Fixture.katCoderPro
              [Fixture.katTier1; Fixture.katTier2; Fixture.katTier3]
              eq_refl ltac:(discriminate))
    as [_ [Hout Htotal]].
  split; [ exact Hout | ].
  rewrite Htotal. reflexivity.
Defined.

(** C1.  The claim is that in range-tiered mode the cache-read summand is
    [cacheReadTokens] times the selected tier's own cache-read rate.  On
    the tier-2 test of [pricing.ts] (50000 input, 10000 output and 5000
    cache-read tokens on [kat-coder-pro-v1]) the selected tier is the
    second one, whose cache-read rate is 1.8e-7, and
    [calculateInputLengthTieredCost] does compute 5000 * 1.8e-7; the sum,
    however, takes the cache-read summand from the top-level rate 1.2e-7,
    so the total is 0.0816 where the test expects 0.0819. *)
Theorem range_tier_cache_read_uses_top_level_rate :
  findApplicableTier [Fixture.katTier1; Fixture.katTier2; Fixture.katTier3]
    50000 Fixture.katTier1 = Fixture.katTier2
  /\ TieredResult.cacheReadCost
       (calculateInputLengthTieredCost 50000 10000 5000 (Some 6e-7) (Some 2.4e-6)
          (tiered_pricing Fixture.katCoderPro))
     == 5000 * 1.8e-7
  /\ cacheReadCost (costSummands Fixture.tier2Tokens Fixture.katCoderPro)
     == 5000 * 1.2e-7
  /\ ~ cacheReadCost (costSummands Fixture.tier2Tokens Fixture.katCoderPro)
       == 5000 * 1.8e-7
  /\ calculateCostFromPricing Fixture.tier2Tokens Fixture.katCoderPro == 0.0816
  /\ ~ calculateCostFromPricing Fixture.tier2Tokens Fixture.katCoderPro == 0.0819.
Proof.
  repeat split; try reflexivity; intro H; discriminate H.
Qed.

(** ** Which mode bills a record *)






(** ** String tests *)

Section StringFacts.

Local Open Scope string_scope.

Lemma prefix_spec (t s : string) :
  String.prefix t s = true <-> exists b, s = t ++ b.
Proof.
  revert s. induction t as [|c t IH]; intros s.
  - split; [ intros _; now exists s | intros _; now destruct s ].
  - destruct s as [|d s]; simpl.
    + split; [ discriminate | intros [b Hb]; discriminate ].
    + destruct (ascii_dec c d) as [->|Hne].
      * rewrite IH. split; intros [b Hb]; exists b.
        -- now rewrite Hb.
        -- now inversion Hb.
      * split; [ discriminate | ].
        intros [b Hb]. inversion Hb. congruence.
Qed.

Lemma includes_unfold (s t : string) :
  Str.includes s t
  = String.prefix t s
    || match s with
       | EmptyString => false
       | String _ s' => Str.includes s' t
       end.
Proof. destruct s; reflexivity. Qed.

Lemma includes_spec (s t : string) :
  Str.includes s t = true <-> exists a b, s = a ++ t ++ b.
Proof.
  split.
  - induction s as [|c s IH]; rewrite includes_unfold, orb_true_iff.
    + intros [H | H]; [ | discriminate ].
      apply prefix_spec in H. destruct H as [b Hb]. now exists "", b.
    + intros [H | H].
      * apply prefix_spec in H. destruct H as [b Hb]. now exists "", b.
      * destruct (IH H) as (a & b & Hab).
        exists (String c a), b. simpl. now rewrite Hab.
  - intros (a & b & Hab). revert s Hab.
    induction a as [|c a IH]; intros s Hab; rewrite includes_unfold.
    + simpl in Hab. apply orb_true_iff. left.
      apply prefix_spec. now exists b.
    + simpl in Hab. subst s. apply orb_true_iff. right.
      now apply IH.
Qed.

Lemma endsWith_unfold (s t : string) :
  Str.endsWith s t
  = String.eqb s t
    || match s with
       | EmptyString => false
       | String _ s' => Str.endsWith s' t
       end.
Proof. destruct s; reflexivity. Qed.

Lemma endsWith_spec (s t : string) :
  Str.endsWith s t = true <-> exists a, s = a ++ t.
Proof.
  split.
  - induction s as [|c s IH]; rewrite endsWith_unfold, orb_true_iff.
    + intros [H | H]; [ | discriminate ].
      apply String.eqb_eq in H. now exists "".
    + intros [H | H].
      * apply String.eqb_eq in H. now exists "".
      * destruct (IH H) as [a Ha]. exists (String c a). simpl. now rewrite Ha.
  - intros [a Ha]. revert s Ha.
    induction a as [|c a IH]; intros s Ha; rewrite endsWith_unfold.
    + simpl in Ha. subst s. now rewrite String.eqb_refl.
    + simpl in Ha. subst s. apply orb_true_iff. right. now apply IH.
Qed.

Lemma append_assoc (a b c : string) : (a ++ b) ++ c = a ++ (b ++ c).
Proof. induction a as [|x a IH]; simpl; [ reflexivity | now rewrite IH ]. Qed.

Lemma append_empty_r (a : string) : a ++ "" = a.
Proof. induction a as [|x a IH]; simpl; [ reflexivity | now rewrite IH ]. Qed.

(** A key that contains [m ++ "/"] contains [m]. *)
Lemma includes_slash_after (k m : string) :
  Str.includes k (m ++ "/") = true -> Str.includes k m = true.
Proof.
  rewrite !includes_spec. intros (a & b & H).
  exists a, ("/" ++ b). now rewrite H, append_assoc.
Qed.

(** A key that ends with ["/" ++ m] contains [m]. *)
Lemma endsWith_slash_before (k m : string) :
  Str.endsWith k ("/" ++ m) = true -> Str.includes k m = true.
Proof.
  rewrite endsWith_spec, includes_spec. intros [a H].
  exists (a ++ "/"), "".
  now rewrite H, append_empty_r, append_assoc.
Qed.

Lemma exactOrSuffix_hit (key lower : string) :
  exactOrSuffix (Str.toLowerCase key) lower = true
  <-> Reference.suffixHit key lower.
Proof.
  unfold exactOrSuffix, Reference.suffixHit.
  rewrite orb_true_iff, String.eqb_eq, endsWith_spec. reflexivity.
Qed.

End StringFacts.

(** ** Fuzzy scores *)

Lemma matchScore_reference (k m : string) :
  matchScore k m = Reference.score k m.
Proof.
  unfold matchScore, Reference.score.
  pose proof (includes_slash_after k m) as Hafter.
  pose proof (endsWith_slash_before k m) as Hbefore.
  destruct (Str.includes k m);
    destruct (Str.includes k (m ++ "/")%string);
    destruct (Str.endsWith k ("/" ++ m)%string);
    simpl; try reflexivity;
    try (specialize (Hafter eq_refl); discriminate);
    try (specialize (Hbefore eq_refl); discriminate).
  destruct (Str.includes k "air"%string), (Str.startsWith k "zai/"%string);
    reflexivity.
Qed.

Section FuzzyPhase.

Local Open Scope Z_scope.

Variable m : string.

Lemma maxScore_cons (kv : string * ModelPricing) (rest : PricingMap) :
  Reference.maxScore (kv :: rest) m
  = Z.max (Reference.keyScore m kv) (Reference.maxScore rest m).
Proof. reflexivity. Qed.

Lemma maxScore_nonneg (pricing : PricingMap) :
  0 <= Reference.maxScore pricing m.
Proof.
  induction pricing as [|kv rest IH]; [ reflexivity | ].
  rewrite maxScore_cons. lia.
Qed.

Lemma maxScore_bound (pricing : PricingMap) :
  Forall (fun kv => Reference.keyScore m kv <= Reference.maxScore pricing m) pricing.
Proof.
  induction pricing as [|kv rest IH]; constructor.
  - rewrite maxScore_cons. lia.
  - apply Forall_impl with (2 := IH). intros kv' H.
    rewrite maxScore_cons. lia.
Qed.

Lemma firstWithScore_cons (key : string) (value : ModelPricing)
    (rest : PricingMap) (s : Z) :
  Reference.firstWithScore ((key, value) :: rest) m s
  = if Reference.score (Str.toLowerCase key) m =? s then Some value
    else Reference.firstWithScore rest m s.
Proof.
  unfold Reference.firstWithScore, Reference.keyScore. simpl.
  now destruct (Reference.score (Str.toLowerCase key) m =? s).
Qed.

(** The invariant of the third loop: the best score only grows, and the
    best match changes exactly when a key beats the score so far. *)
Lemma bestMatchLoop_invariant (pricing : PricingMap)
    (bestMatch : option ModelPricing) (bestMatchScore : Z) :
  0 <= bestMatchScore ->
  let best := Z.max bestMatchScore (Reference.maxScore pricing m) in
  bestMatchLoop pricing m bestMatch bestMatchScore
  = (if best >? bestMatchScore
     then Reference.firstWithScore pricing m best
     else bestMatch,
     best).
Proof.
  revert bestMatch bestMatchScore.
  induction pricing as [|[key value] rest IH];
    intros bestMatch bestMatchScore Hnonneg best; subst best.
  - simpl. rewrite Z.max_l by assumption.
    now rewrite Z.gtb_ltb, Z.ltb_irrefl.
  - simpl bestMatchLoop. rewrite matchScore_reference, maxScore_cons.
    unfold Reference.keyScore. simpl fst.
    set (s := Reference.score (Str.toLowerCase key) m).
    set (mr := Reference.maxScore rest m).
    rewrite firstWithScore_cons. fold s.
    destruct (s >? bestMatchScore) eqn:Hs.
    + apply Z.gtb_lt in Hs.
      rewrite IH by lia. fold mr.
      replace (Z.max bestMatchScore (Z.max s mr)) with (Z.max s mr) by lia.
      replace (Z.max s mr >? bestMatchScore) with true
        by (symmetry; apply Z.gtb_lt; lia).
      destruct (Z.max s mr >? s) eqn:Hgt.
      * apply Z.gtb_lt in Hgt.
        replace (s =? Z.max s mr) with false
          by (symmetry; apply Z.eqb_neq; lia).
        reflexivity.
      * assert (Hle : Z.max s mr <= s).
        { destruct (Z.gtb_spec (Z.max s mr) s); [ discriminate | assumption ]. }
        replace (s =? Z.max s mr) with true
          by (symmetry; apply Z.eqb_eq; lia).
        reflexivity.
    + assert (Hle : s <= bestMatchScore).
      { destruct (Z.gtb_spec s bestMatchScore); [ discriminate | assumption ]. }
      rewrite IH by assumption. fold mr.
      replace (Z.max bestMatchScore (Z.max s mr))
        with (Z.max bestMatchScore mr) by lia.
      destruct (Z.max bestMatchScore mr >? bestMatchScore) eqn:Hgt;
        [ | reflexivity ].
      apply Z.gtb_lt in Hgt.
      replace (s =? Z.max bestMatchScore mr) with false
        by (symmetry; apply Z.eqb_neq; lia).
      reflexivity.
Qed.

Lemma fuzzyMatch_reference (pricing : PricingMap) :
  fuzzyMatch pricing m = Reference.fuzzy pricing m.
Proof.
  unfold fuzzyMatch, Reference.fuzzy.
  rewrite bestMatchLoop_invariant by reflexivity. simpl fst.
  pose proof (maxScore_nonneg pricing) as Hnonneg.
  rewrite Z.max_r by assumption.
  destruct (Reference.maxScore pricing m =? 0) eqn:E.
  - apply Z.eqb_eq in E. rewrite E. reflexivity.
  - apply Z.eqb_neq in E.
    replace (Reference.maxScore pricing m >? 0) with true
      by (symmetry; apply Z.gtb_lt; lia).
    reflexivity.
Qed.

Lemma maxScore_attained (pricing : PricingMap) :
  0 < Reference.maxScore pricing m ->
  Exists (fun kv => Reference.keyScore m kv = Reference.maxScore pricing m) pricing.
Proof.
  induction pricing as [|kv rest IH]; [ simpl; lia | ].
  rewrite maxScore_cons. intro Hpos.
  destruct (Z_le_gt_dec (Reference.maxScore rest m) (Reference.keyScore m kv)) as [Hle|Hgt].
  - left. lia.
  - right. rewrite Z.max_r in * by lia. now apply IH.
Qed.

Lemma firstWithScore_first (pricing : PricingMap) (best : Z) :
  Forall (fun kv => Reference.keyScore m kv <= best) pricing ->
  Exists (fun kv => Reference.keyScore m kv = best) pricing ->
  exists before key value after,
    pricing = before ++ (key, value) :: after
    /\ Reference.firstWithScore pricing m best = Some value
    /\ Reference.score (Str.toLowerCase key) m = best
    /\ Forall (fun kv => Reference.keyScore m kv < best) before.
Proof.
  induction pricing as [|[key value] rest IH]; intros Hall Hex.
  - inversion Hex.
  - rewrite firstWithScore_cons.
    destruct (Reference.score (Str.toLowerCase key) m =? best) eqn:E.
    + apply Z.eqb_eq in E. exists [], key, value, rest.
      repeat split; [ exact E | constructor ].
    + apply Z.eqb_neq in E.
      apply Forall_cons_iff in Hall. destruct Hall as [Hhead Htail].
      apply Exists_cons in Hex. destruct Hex as [Hhere|Hlater].
      * unfold Reference.keyScore in Hhere. simpl in Hhere. contradiction.
      * destruct (IH Htail Hlater)
          as (before & key' & value' & after & Heq & Hfind & Hscore & Hlow).
        exists ((key, value) :: before), key', value', after.
        split; [ simpl; now rewrite Heq | ].
        split; [ exact Hfind | ].
        split; [ exact Hscore | ].
        constructor; [ | exact Hlow ].
        unfold Reference.keyScore in *. simpl in *. lia.
Qed.

(** The first key with the best score, when some key scores above 0. *)
Lemma firstWithScore_best (pricing : PricingMap) :
  0 < Reference.maxScore pricing m ->
  exists before key value after,
    pricing = before ++ (key, value) :: after
    /\ Reference.firstWithScore pricing m (Reference.maxScore pricing m)
       = Some value
    /\ Reference.score (Str.toLowerCase key) m = Reference.maxScore pricing m
    /\ Forall (fun kv => Reference.keyScore m kv < Reference.maxScore pricing m) before.
Proof.
  intro Hpos. apply firstWithScore_first.
  - apply maxScore_bound.
  - now apply maxScore_attained.
Qed.

End FuzzyPhase.

(** ** The resolver *)


Lemma resolvePricing_fuzzy (prefixes : list string) (pricing : PricingMap)
    (modelName : string) :
  directMatch pricing (createMatchingCandidates prefixes modelName) = None ->
  exactOrSuffixMatch pricing (Str.toLowerCase modelName) = None ->
  resolvePricing prefixes pricing modelName
  = Reference.fuzzy pricing (Str.toLowerCase modelName).
Proof.
  intros Hdirect Hsuffix. unfold resolvePricing.
  rewrite Hdirect, Hsuffix. apply fuzzyMatch_reference.
Qed.

(** C4.  In the fuzzy phase, reached when the exact and the suffix phases
    find nothing, each key gets the score of the specification (100, 95, 90,
    50, 10 or 0); the result is the record of the first key, in dataset
    order, that attains the largest score, and it is not-found exactly when
    the largest score is 0.  A hit of the exact or of the suffix phase is
    returned without scoring. *)
Theorem fuzzy_phase_first_best_score :
  (forall k m, matchScore k m = Reference.score k m)
  /\ (forall prefixes pricing modelName,
         let m := Str.toLowerCase modelName in
         let best := Reference.maxScore pricing m in
         directMatch pricing (createMatchingCandidates prefixes modelName) = None ->
         exactOrSuffixMatch pricing m = None ->
         resolvePricing prefixes pricing modelName = Reference.fuzzy pricing m
         /\ (resolvePricing prefixes pricing modelName = None <-> best = 0%Z)
         /\ ((0 < best)%Z ->
             exists before key value after,
               pricing = before ++ (key, value) :: after
               /\ resolvePricing prefixes pricing modelName = Some value
               /\ Reference.score (Str.toLowerCase key) m = best
               /\ Forall (fun kv => (Reference.keyScore m kv < best)%Z) before
               /\ Forall (fun kv => (Reference.keyScore m kv <= best)%Z) after))
  /\ (forall prefixes pricing modelName value,
         directMatch pricing (createMatchingCandidates prefixes modelName)
         = Some value
         \/ (directMatch pricing (createMatchingCandidates prefixes modelName)
             = None
             /\ exactOrSuffixMatch pricing (Str.toLowerCase modelName)
                = Some value) ->
         resolvePricing prefixes pricing modelName = Some value).
Proof.
  split; [ exact matchScore_reference | ].
  split;
    [ | intros prefixes pricing modelName value [H1 | [H1 H2]];
        unfold resolvePricing; rewrite H1; [ | rewrite H2 ]; reflexivity ].
  intros prefixes pricing modelName m best Hdirect Hsuffix.
  pose proof (resolvePricing_fuzzy prefixes pricing modelName Hdirect Hsuffix)
    as Hfuzzy.
  fold m in Hfuzzy.
  assert (Hbest : (0 < best)%Z ->
                  exists before key value after,
                    pricing = before ++ (key, value) :: after
                    /\ resolvePricing prefixes pricing modelName = Some value
                    /\ Reference.score (Str.toLowerCase key) m = best
                    /\ Forall (fun kv => (Reference.keyScore m kv < best)%Z) before
                    /\ Forall (fun kv => (Reference.keyScore m kv <= best)%Z) after).
  { intro Hpos.
    destruct (firstWithScore_best m pricing Hpos)
      as (before & key & value & after & Heq & Hfind & Hscore & Hlow).
    exists before, key, value, after.
    split; [ exact Heq | ].
    split.
    - rewrite Hfuzzy. unfold Reference.fuzzy. fold best.
      replace (best =? 0)%Z with false by (symmetry; apply Z.eqb_neq; lia).
      exact Hfind.
    - split; [ exact Hscore | split; [ exact Hlow | ] ].
      pose proof (maxScore_bound m pricing) as Hbound. fold best in Hbound.
      rewrite Heq in Hbound.
      apply Forall_app in Hbound. destruct Hbound as [_ Hbound].
      now apply Forall_cons_iff in Hbound. }
  split; [ exact Hfuzzy | split; [ | exact Hbest ] ].
  split.
  - intro Hnone.
    pose proof (maxScore_nonneg m pricing) as Hnonneg. fold best in Hnonneg.
    destruct (Z.eq_dec best 0) as [|Hne]; [ assumption | ].
    destruct Hbest as (? & ? & ? & ? & _ & Hsome & _); [ lia | congruence ].
  - intro Hzero. rewrite Hfuzzy. unfold Reference.fuzzy. fold best.
    now rewrite Hzero.
Qed.

Lemma fuzzy_phase_first_best_score_witness :
  resolvePricing DEFAULT_PROVIDER_PREFIXES
    [ ("openrouter/glm-4.5-air"%string, emptyPricing);
      ("zai/glm-4.5"%string, Fixture.katCoderPro);
      ("zai/glm-4.6"%string, Fixture.emptyTiers) ]
    "GLM-4"
  = Some Fixture.katCoderPro
  /\ resolvePricing DEFAULT_PROVIDER_PREFIXES
       [ ("openrouter/glm-4.5-air"%string, emptyPricing);
         ("zai/glm-4.5"%string, Fixture.katCoderPro) ]
       "glm-4.5"
     = Some Fixture.katCoderPro.
Proof.
  destruct fuzzy_phase_first_best_score as (_ & Hfuzzy & Hearlier).
  split.
  - destruct (Hfuzzy DEFAULT_PROVIDER_PREFIXES
                [ ("openrouter/glm-4.5-air"%string, emptyPricing);
                  ("zai/glm-4.5"%string, Fixture.katCoderPro);
                  ("zai/glm-4.6"%string, Fixture.emptyTiers) ]
                "GLM-4"%string eq_refl eq_refl) as [Heq _].
    rewrite Heq. reflexivity.
  - apply Hearlier. left. reflexivity.
Defined.

Lemma exactOrSuffixMatch_first (lower : string)
    (before : PricingMap) (key : string) (value : ModelPricing)
    (after : PricingMap) :
  Reference.suffixHit key lower ->
  Forall (fun kv => ~ Reference.suffixHit (fst kv) lower) before ->
  exactOrSuffixMatch (before ++ (key, value) :: after) lower = Some value.
Proof.
  intros Hhit Hbefore.
  induction before as [|[k v] before IH]; simpl.
  - apply exactOrSuffix_hit in Hhit. now rewrite Hhit.
  - apply Forall_cons_iff in Hbefore. destruct Hbefore as [Hmiss Hbefore].
    simpl in Hmiss.
    destruct (exactOrSuffix (Str.toLowerCase k) lower) eqn:E.
    + apply exactOrSuffix_hit in E. contradiction.
    + now apply IH.
Qed.

Lemma exactOrSuffixMatch_none (lower : string) (pricing : PricingMap) :
  Forall (fun kv => ~ Reference.suffixHit (fst kv) lower) pricing ->
  exactOrSuffixMatch pricing lower = None.
Proof.
  induction pricing as [|[k v] rest IH]; intro Hall; simpl; [ reflexivity | ].
  apply Forall_cons_iff in Hall. destruct Hall as [Hmiss Hrest].
  simpl in Hmiss.
  destruct (exactOrSuffix (Str.toLowerCase k) lower) eqn:E.
  - apply exactOrSuffix_hit in E. contradiction.
  - now apply IH.
Qed.

(** C7.  When no candidate of the exact phase is a key, the resolver scans
    the keys in insertion order and returns the record of the first key
    whose lower-cased form equals the lower-cased query or ends with ["/"]
    followed by it.  A dataset holding only ["moonshot/kimi-for-coding"]
    resolves ["kimi-for-coding"] to that record in this phase, through
    [getModelPricing] as well. *)
Theorem suffix_phase_first_hit :
  (forall prefixes modelName before key value after,
      let pricing := before ++ (key, value) :: after in
      let lower := Str.toLowerCase modelName in
      directMatch pricing (createMatchingCandidates prefixes modelName) = None ->
      Reference.suffixHit key lower ->
      Forall (fun kv => ~ Reference.suffixHit (fst kv) lower) before ->
      exactOrSuffixMatch pricing lower = Some value
      /\ resolvePricing prefixes pricing modelName = Some value)
  /\ (forall record loader,
         let pricing := [("moonshot/kimi-for-coding"%string, record)] in
         let f := newPricingFetcher loader None in
         loader 0%nat = Resolved pricing ->
         directMatch pricing
           (createMatchingCandidates DEFAULT_PROVIDER_PREFIXES "kimi-for-coding")
         = None
         /\ exactOrSuffixMatch pricing (Str.toLowerCase "kimi-for-coding")
            = Some record
         /\ fst (getModelPricing f "kimi-for-coding") = Success (Some record)).
Proof.
  split.
  - intros prefixes modelName before key value after pricing lower
           Hdirect Hhit Hbefore.
    assert (Hphase2 : exactOrSuffixMatch pricing lower = Some value)
      by now apply exactOrSuffixMatch_first.
    split; [ exact Hphase2 | ].
    unfold resolvePricing. fold lower. now rewrite Hdirect, Hphase2.
  - intros record loader pricing f Hload.
    split; [ reflexivity | split; [ reflexivity | ] ].
    unfold getModelPricing, ensurePricingLoaded, ensurePricingLoaded_start.
    simpl. rewrite Hload. reflexivity.
Qed.

Lemma suffix_phase_first_hit_witness :
  resolvePricing DEFAULT_PROVIDER_PREFIXES
    [ ("zai/glm-4.5"%string, emptyPricing);
      ("Moonshot/Kimi-For-Coding"%string, Fixture.katCoderPro);
      ("other/kimi-for-coding"%string, Fixture.emptyTiers) ]
    "kimi-for-coding"
  = Some Fixture.katCoderPro
  /\ fst (getModelPricing
            (newPricingFetcher
               (fun _ => Resolved [("moonshot/kimi-for-coding"%string,
                                    Fixture.katCoderPro)])
               None)
            "kimi-for-coding")
     = Success (Some Fixture.katCoderPro).
Proof.
  destruct suffix_phase_first_hit as [Hscan Hkimi].
  split.
  - apply (Hscan DEFAULT_PROVIDER_PREFIXES "kimi-for-coding"%string
                 [("zai/glm-4.5"%string, emptyPricing)]
                 "Moonshot/Kimi-For-Coding"%string Fixture.katCoderPro
                 [("other/kimi-for-coding"%string, Fixture.emptyTiers)]).
    + reflexivity.
    + right. exists "moonshot"%string. reflexivity.
    + constructor; [ | constructor ].
      intro Hhit. apply exactOrSuffix_hit in Hhit. discriminate Hhit.
  - apply (Hkimi Fixture.katCoderPro
                 (fun _ => Resolved [("moonshot/kimi-for-coding"%string,
                                      Fixture.katCoderPro)])).
    reflexivity.
Defined.

(** ** Cost of a model name ([calculateCostFromTokens]) *)

(** Counterexample to C5 as stated: on an empty dataset the resolver finds
    no record for the empty model name, and [calculateCostFromTokens]
    answers with a successful zero cost. *)
Lemma empty_model_name_zero_cost_success :
  let f := newPricingFetcher (fun _ => Resolved []) None in
  let tokens := mkTokens 1000 500 None None in
  fst (getModelPricing f "") = Success None
  /\ fst (calculateCostFromTokens f tokens (Some ""%string)) = Success 0.
Proof. split; reflexivity. Qed.

(** C5, amended.  For every fetcher and every non-empty model name for
    which the resolver finds no record, [calculateCostFromTokens] returns
    the [Model pricing not found] error; when a record is found it returns
    the cost of that record.  For an absent or empty model name it returns a
    successful zero cost without touching the dataset.  A success and an
    error are different results. *)
Theorem calculateCostFromTokens_outcomes :
  (forall f tokens modelName,
      modelName <> ""%string ->
      fst (getModelPricing f modelName) = Success None ->
      fst (calculateCostFromTokens f tokens (Some modelName))
      = Failure (mkError ("Model pricing not found for " ++ modelName)%string None))
  /\ (forall f tokens modelName pricing,
         modelName <> ""%string ->
         fst (getModelPricing f modelName) = Success (Some pricing) ->
         fst (calculateCostFromTokens f tokens (Some modelName))
         = Success (calculateCostFromPricing tokens pricing))
  /\ (forall f tokens,
         calculateCostFromTokens f tokens None = (Success 0, f)
         /\ calculateCostFromTokens f tokens (Some ""%string) = (Success 0, f))
  /\ (forall (cost : number) (e : Error), Success cost <> Failure e).
Proof.
  assert (Hstep : forall f tokens modelName,
             modelName <> ""%string ->
             fst (calculateCostFromTokens f tokens (Some modelName))
             = Result_andThen
                 (fun pricing =>
                    match pricing with
                    | None =>
                        Failure (mkError
                                   ("Model pricing not found for " ++ modelName)%string
                                   None)
                    | Some pricing => Success (calculateCostFromPricing tokens pricing)
                    end)
                 (fst (getModelPricing f modelName))).
  { intros f tokens modelName Hne. unfold calculateCostFromTokens.
    apply String.eqb_neq in Hne. rewrite Hne.
    now destruct (getModelPricing f modelName). }
  split; [ | split; [ | split ] ].
  - intros f tokens modelName Hne Hnone. now rewrite Hstep, Hnone.
  - intros f tokens modelName pricing Hne Hsome. now rewrite Hstep, Hsome.
  - intros f tokens. split; reflexivity.
  - intros cost e H. discriminate H.
Qed.

Lemma calculateCostFromTokens_outcomes_witness :
  fst (calculateCostFromTokens
         (newPricingFetcher
            (fun _ => Resolved [("gpt-5"%string, emptyPricing)]) None)
         (mkTokens 1000 500 None None)
         (Some "totally-unknown-model-xyz"%string))
  = Failure (mkError "Model pricing not found for totally-unknown-model-xyz" None)
  /\ fst (calculateCostFromTokens
            (newPricingFetcher
               (fun _ => Resolved [("gpt-5"%string, emptyPricing)]) None)
            (mkTokens 1000 500 None None)
            (Some "gpt-5"%string))
     = Success (calculateCostFromPricing (mkTokens 1000 500 None None) emptyPricing).
Proof.
  destruct calculateCostFromTokens_outcomes as [Hmissing [Hfound _]].
  split.
  - apply (Hmissing
             (newPricingFetcher
                (fun _ => Resolved [("gpt-5"%string, emptyPricing)]) None)
             (mkTokens 1000 500 None None)
             "totally-unknown-model-xyz"%string).
    + discriminate.
    + reflexivity.
  - apply (Hfound
             (newPricingFetcher
                (fun _ => Resolved [("gpt-5"%string, emptyPricing)]) None)
             (mkTokens 1000 500 None None)
             "gpt-5"%string emptyPricing).
    + discriminate.
    + reflexivity.
Defined.

(** ** The dataset loader *)

Section LoaderFacts.

Import Loader.

Lemma Dict_set_fresh (V : Type) (m : Dict.t V) (key : string) (value : V) :
  ~ In key (Dict.keys m) -> Dict.set m key value = m ++ [(key, value)].
Proof.
  induction m as [|[k v] rest IH]; intro Hfresh; simpl; [ reflexivity | ].
  simpl in Hfresh.
  destruct (String.eqb k key) eqn:E.
  - apply String.eqb_eq in E. tauto.
  - rewrite IH by tauto. reflexivity.
Qed.

Lemma keys_app (V : Type) (a b : Dict.t V) :
  Dict.keys (a ++ b) = Dict.keys a ++ Dict.keys b.
Proof. apply map_app. Qed.

Lemma collect_cons (name : string) (data : JSON)
    (rest : list (string * JSON)) (dataset : PricingDataset) :
  collect ((name, data) :: rest) dataset
  = match (if Schema.isObject data then Schema.modelPricingSchema data
           else None) with
    | Some record => collect rest (Dict.set dataset name record)
    | None => collect rest dataset
    end.
Proof. destruct data; reflexivity. Qed.

Lemma validEntries_cons (name : string) (data : JSON)
    (rest : list (string * JSON)) :
  Reference.validEntries ((name, data) :: rest)
  = match (if Schema.isObject data then Schema.modelPricingSchema data
           else None) with
    | Some record => (name, record) :: Reference.validEntries rest
    | None => Reference.validEntries rest
    end.
Proof. reflexivity. Qed.

(** With distinct keys, the assignments of the loop never overwrite. *)
Lemma collect_validEntries (entries : list (string * JSON))
    (dataset : PricingDataset) :
  NoDup (Dict.keys dataset ++ map fst entries) ->
  collect entries dataset = dataset ++ Reference.validEntries entries.
Proof.
  revert dataset.
  induction entries as [|[name data] rest IH]; intros dataset Hnodup.
  - simpl. now rewrite app_nil_r.
  - rewrite collect_cons, validEntries_cons.
    change (map fst ((name, data) :: rest)) with (name :: map fst rest)
      in Hnodup.
    pose proof (NoDup_remove_1 _ _ _ Hnodup) as Hrest.
    pose proof (NoDup_remove_2 _ _ _ Hnodup) as Hfresh.
    destruct (if Schema.isObject data then Schema.modelPricingSchema data
              else None) as [record|].
    + rewrite Dict_set_fresh
        by (intro Hin; apply Hfresh; apply in_or_app; now left).
      rewrite IH.
      * now rewrite <- app_assoc.
      * rewrite keys_app, <- app_assoc. exact Hnodup.
    + now apply IH.
Qed.

Lemma validEntries_In (entries : list (string * JSON)) (name : string)
    (record : ModelPricing) :
  In (name, record) (Reference.validEntries entries)
  <-> exists data,
      In (name, data) entries
      /\ Schema.isObject data = true
      /\ Schema.modelPricingSchema data = Some record.
Proof.
  induction entries as [|[k data] rest IH].
  - simpl. split; [ tauto | intros (? & [] & _) ].
  - rewrite validEntries_cons.
    assert (Hrest : (exists d, In (name, d) rest
                               /\ Schema.isObject d = true
                               /\ Schema.modelPricingSchema d = Some record)
                    -> exists d, In (name, d) ((k, data) :: rest)
                                 /\ Schema.isObject d = true
                                 /\ Schema.modelPricingSchema d = Some record).
    { intros (d & Hin & Hd). exists d. split; [ now right | exact Hd ]. }
    destruct (Schema.isObject data) eqn:Hobj;
      [ destruct (Schema.modelPricingSchema data) as [r|] eqn:Hparse | ].
    + split.
      * intros [Heq | Hin].
        -- inversion Heq; subst. exists data.
           split; [ now left | split; assumption ].
        -- apply Hrest. now apply IH.
      * intros (d & [Heq | Hin] & Ho & Hp).
        -- inversion Heq; subst. left. congruence.
        -- right. apply IH. exists d. auto.
    + split.
      * intro Hin. apply Hrest. now apply IH.
      * intros (d & [Heq | Hin] & Ho & Hp).
        -- inversion Heq; subst. congruence.
        -- apply IH. exists d. auto.
    + split.
      * intro Hin. apply Hrest. now apply IH.
      * intros (d & [Heq | Hin] & Ho & Hp).
        -- inversion Heq; subst. congruence.
        -- apply IH. exists d. auto.
Qed.

Lemma loadLocalPricingDataset_returns (env : Env) :
  exists dataset, loadLocalPricingDataset env = Normal dataset.
Proof.
  unfold loadLocalPricingDataset.
  destruct (loadBody env) as [dataset|e]; eauto.
Qed.

End LoaderFacts.

(** C8.  [loadLocalPricingDataset] always returns: whatever it reads, it
    completes normally with a dataset.  When the body of its [try] block
    throws (a directory cannot be determined, no path can be read, the text
    is blank, [JSON.parse] throws) the dataset is empty.  When the text
    parses to an object, the dataset holds exactly the entries that are
    objects and pass [modelPricingSchema], in source order, and every other
    entry is skipped; a source with one well-formed entry and one entry with
    wrong-typed numeric fields yields exactly the well-formed entry. *)
Theorem loader_never_throws :
  (forall env, exists dataset, Loader.loadLocalPricingDataset env = Normal dataset)
  /\ (forall env e,
         Loader.loadBody env = Throw e ->
         Loader.loadLocalPricingDataset env = Normal [])
  /\ (forall env dir,
         Loader.currentModuleDir env = Normal dir ->
         (forall path, Loader.readFileSync env path = None) ->
         Loader.loadLocalPricingDataset env = Normal [])
  /\ (forall env dir workingDir raw,
         Loader.currentModuleDir env = Normal dir ->
         Loader.cwd env = Normal workingDir ->
         Loader.readFirst (Loader.readFileSync env)
           [ Loader.join dir "model_prices_and_context_window.json";
             Loader.join workingDir "model_prices_and_context_window.json" ]
         = Some raw ->
         Loader.JSON_parse env raw = None ->
         Loader.loadLocalPricingDataset env = Normal [])
  /\ (forall env dir workingDir raw fields,
         Loader.currentModuleDir env = Normal dir ->
         Loader.cwd env = Normal workingDir ->
         Loader.readFirst (Loader.readFileSync env)
           [ Loader.join dir "model_prices_and_context_window.json";
             Loader.join workingDir "model_prices_and_context_window.json" ]
         = Some raw ->
         Loader.trimsToEmpty raw = false ->
         Loader.JSON_parse env raw = Some (JObject fields) ->
         NoDup (map fst fields) ->
         Loader.loadLocalPricingDataset env
         = Normal (Reference.validEntries fields))
  /\ (forall fields name record,
         In (name, record) (Reference.validEntries fields)
         <-> exists data,
             In (name, data) fields
             /\ Schema.isObject data = true
             /\ Schema.modelPricingSchema data = Some record)
  /\ Loader.loadLocalPricingDataset Fixture.sourceEnv
     = Normal [("gpt-5"%string, Fixture.gpt5)]
  /\ (forall env e,
         Loader.currentModuleDir env = Throw e \/ Loader.cwd env = Throw e ->
         Loader.loadLocalPricingDataset env = Normal []).
Proof.
  split; [ exact loadLocalPricingDataset_returns | ].
  split; [ | split; [ | split; [ | split; [ | split; [ | split ] ] ] ] ].
  - intros env e Hthrow. unfold Loader.loadLocalPricingDataset.
    now rewrite Hthrow.
  - intros env dir Hdir Hread.
    unfold Loader.loadLocalPricingDataset, Loader.loadBody.
    rewrite Hdir. destruct (Loader.cwd env); [ | reflexivity ].
    simpl. now rewrite !Hread.
  - intros env dir workingDir raw Hdir Hcwd Hread Hparse.
    unfold Loader.loadLocalPricingDataset, Loader.loadBody.
    rewrite Hdir, Hcwd, Hread, Hparse.
    now destruct (Loader.trimsToEmpty raw).
  - intros env dir workingDir raw fields Hdir Hcwd Hread Hblank Hparse Hnodup.
    unfold Loader.loadLocalPricingDataset, Loader.loadBody.
    rewrite Hdir, Hcwd, Hread, Hblank, Hparse.
    cbn [Loader.Object_entries].
    now rewrite collect_validEntries.
  - exact validEntries_In.
  - reflexivity.
  - intros env e [Hdir | Hcwd];
      unfold Loader.loadLocalPricingDataset, Loader.loadBody.
    + now rewrite Hdir.
    + rewrite Hcwd. now destruct (Loader.currentModuleDir env).
Qed.

Lemma loader_never_throws_witness :
  Loader.loadLocalPricingDataset Fixture.sourceEnv
  = Normal (Reference.validEntries Fixture.parsedSource)
  /\ Loader.loadLocalPricingDataset
       (Loader.mkEnv (Normal "/app/dist"%string) (Normal "/home/user"%string)
                     (fun _ => None) (fun _ => None))
     = Normal []
  /\ Loader.loadLocalPricingDataset
       (Loader.mkEnv (Normal "/app/dist"%string) (Normal "/home/user"%string)
                     (fun _ => Some "{ truncated"%string) (fun _ => None))
     = Normal []
  /\ Loader.loadLocalPricingDataset
       (Loader.mkEnv (Throw "TypeError: not a file URL"%string)
                     (Normal "/home/user"%string)
                     (fun _ => None) (fun _ => None))
     = Normal []
  /\ Loader.loadLocalPricingDataset
       (Loader.mkEnv (Normal "/app/dist"%string)
                     (Throw "ENOENT: uv_cwd"%string)
                     (fun _ => Some "{ three entries }"%string)
                     (fun _ => Some (JObject Fixture.parsedSource)))
     = Normal [].
Proof.
  destruct loader_never_throws
    as (_ & Hthrow & Hunread & Hunparsed & Hvalid & _ & _ & Hnodir).
  split; [ | split; [ | split; [ | split ] ] ].
  - apply (Hvalid Fixture.sourceEnv "/app/dist"%string "/home/user"%string
                  "{ three entries }"%string Fixture.parsedSource);
      try reflexivity.
    repeat constructor; simpl; intuition discriminate.
  - apply (Hunread
             (Loader.mkEnv (Normal "/app/dist"%string)
                           (Normal "/home/user"%string)
                           (fun _ => None) (fun _ => None))
             "/app/dist"%string); reflexivity.
  - apply (Hunparsed
             (Loader.mkEnv (Normal "/app/dist"%string)
                           (Normal "/home/user"%string)
                           (fun _ => Some "{ truncated"%string) (fun _ => None))
             "/app/dist"%string "/home/user"%string "{ truncated"%string);
      reflexivity.
  - apply (Hthrow
             (Loader.mkEnv (Throw "TypeError: not a file URL"%string)
                           (Normal "/home/user"%string)
                           (fun _ => None) (fun _ => None))
             "TypeError: not a file URL"%string); reflexivity.
  - apply (Hnodir
             (Loader.mkEnv (Normal "/app/dist"%string)
                           (Throw "ENOENT: uv_cwd"%string)
                           (fun _ => Some "{ three entries }"%string)
                           (fun _ => Some (JObject Fixture.parsedSource)))
             "ENOENT: uv_cwd"%string).
    right. reflexivity.
Defined.

(** ** Interleaved calls *)

Section AsyncFacts.

Import Async.

Lemma run_cons (s : State) (e : Event) (schedule : list Event) :
  run s (e :: schedule) = run (step s e) schedule.
Proof. reflexivity. Qed.

Lemma step_call_cached (s : State) (c : Caller) (pricing : PricingMap) :
  cachedPricing (fetcher s) = Some pricing ->
  step s (Call c)
  = mkState (fetcher s) (pending s) (returned s ++ [(c, Success pricing)]).
Proof.
  intro Hcache. unfold step, ensurePricingLoaded_start. now rewrite Hcache.
Qed.

Lemma step_call_empty (s : State) (c : Caller) :
  cachedPricing (fetcher s) = None ->
  loaderCalls (fetcher (step s (Call c))) = S (loaderCalls (fetcher s))
  /\ inFlight (step s (Call c)) = S (inFlight s)
  /\ cachedPricing (fetcher (step s (Call c))) = None
  /\ returned (step s (Call c)) = returned s.
Proof.
  intro Hcache. unfold step, ensurePricingLoaded_start, inFlight.
  rewrite Hcache. simpl. rewrite length_app. simpl.
  repeat split. lia.
Qed.

(** Awaited calls on a loaded fetcher never reach the loader. *)
Lemma run_sequential_cached (callers : list Caller) (f : PricingFetcher)
    (pricing : PricingMap) (done : list (Caller * Result PricingMap Error)) :
  cachedPricing f = Some pricing ->
  run (mkState f [] done) (sequential callers)
  = mkState f [] (done ++ map (fun c => (c, Success pricing)) callers).
Proof.
  intro Hcache. revert done.
  induction callers as [|c rest IH]; intro done.
  - simpl. now rewrite app_nil_r.
  - change (sequential (c :: rest))
      with (Call c :: Settle c :: sequential rest).
    rewrite !run_cons.
    rewrite step_call_cached with (pricing := pricing) by exact Hcache.
    cbn [step fetcher pending returned take].
    rewrite IH. simpl. now rewrite <- app_assoc.
Qed.

Lemma run_sequential_first (c : Caller) (callers : list Caller)
    (f : PricingFetcher) (entries : list (string * ModelPricing)) :
  cachedPricing f = None ->
  offlineLoader f (loaderCalls f) = Resolved entries ->
  let s := run (init f) (sequential (c :: callers)) in
  loaderCalls (fetcher s) = S (loaderCalls f)
  /\ inFlight s = 0%nat
  /\ cachedPricing (fetcher s) = Some (Dict.ofEntries entries)
  /\ returned s
     = map (fun c' => (c', Success (Dict.ofEntries entries))) (c :: callers).
Proof.
  intros Hcache Hload s. subst s.
  change (sequential (c :: callers))
    with (Call c :: Settle c :: sequential callers).
  rewrite !run_cons. unfold init.
  cbn [step fetcher pending returned].
  unfold ensurePricingLoaded_start. rewrite Hcache, Hload.
  cbn [pending returned fetcher app take]. rewrite Nat.eqb_refl.
  cbn [ensurePricingLoaded_resume offlineLoader providerPrefixes
       loaderCalls app].
  rewrite run_sequential_cached with (pricing := Dict.ofEntries entries)
    by reflexivity.
  repeat split.
Qed.

End AsyncFacts.

(** The sequential [ensurePricingLoaded] is the schedule in which the call
    is settled before anything else happens. *)
Lemma ensurePricingLoaded_schedule (f : PricingFetcher) (c : Async.Caller) :
  let s := Async.run (Async.init f) [Async.Call c; Async.Settle c] in
  Async.fetcher s = snd (ensurePricingLoaded f)
  /\ Async.returned s = [(c, fst (ensurePricingLoaded f))]
  /\ Async.pending s = [].
Proof.
  unfold Async.run, Async.init, ensurePricingLoaded. simpl.
  destruct (ensurePricingLoaded_start f) as [[pricing|outcome] f'] eqn:Hstart;
    simpl.
  - repeat split.
  - rewrite Nat.eqb_refl.
    destruct (ensurePricingLoaded_resume f' outcome) as [r f''].
    repeat split.
Qed.

(** Counterexample to C9 as stated: two calls made before the first load
    settles.  Each finds the cache empty and invokes the loader, so two
    loads are in flight; when the loader answers differently the second
    time, the two callers receive different datasets. *)
Lemma racing_calls_load_twice :
  let f := newPricingFetcher Fixture.changingLoader None in
  let racing := Async.run (Async.init f) [Async.Call 0%nat; Async.Call 1%nat] in
  let settled := Async.run racing [Async.Settle 0%nat; Async.Settle 1%nat] in
  Async.inFlight racing = 2%nat
  /\ loaderCalls (Async.fetcher racing) = 2%nat
  /\ Async.returned settled
     = [ (0%nat, Success [("gpt-5"%string, Fixture.gpt5)]);
         (1%nat, Success [("gpt-5"%string, Fixture.gpt5);
                          ("kat-coder-pro-v1"%string, Fixture.katCoderPro)]) ]
  /\ cachedPricing (Async.fetcher settled)
     = Some [("gpt-5"%string, Fixture.gpt5);
             ("kat-coder-pro-v1"%string, Fixture.katCoderPro)].
Proof. repeat split. Qed.

(** C9, amended.  A call that finds the cache filled returns the cached
    dataset and does not invoke the loader.  Calls made one after the
    other, each awaited before the next, invoke the loader exactly once
    when that load succeeds, leave no load in flight, and all return the
    same dataset.  A call that finds the cache empty invokes the loader
    itself, whether or not another load is already in flight. *)
Theorem loader_once_without_overlap :
  (forall s c pricing,
      cachedPricing (Async.fetcher s) = Some pricing ->
      let s' := Async.step s (Async.Call c) in
      loaderCalls (Async.fetcher s') = loaderCalls (Async.fetcher s)
      /\ Async.inFlight s' = Async.inFlight s
      /\ Async.returned s' = Async.returned s ++ [(c, Success pricing)])
  /\ (forall f entries c callers,
         cachedPricing f = None ->
         offlineLoader f (loaderCalls f) = Resolved entries ->
         let s := Async.run (Async.init f) (Async.sequential (c :: callers)) in
         loaderCalls (Async.fetcher s) = S (loaderCalls f)
         /\ Async.inFlight s = 0%nat
         /\ Async.returned s
            = map (fun c' => (c', Success (Dict.ofEntries entries))) (c :: callers))
  /\ (forall s c,
         cachedPricing (Async.fetcher s) = None ->
         let s' := Async.step s (Async.Call c) in
         loaderCalls (Async.fetcher s') = S (loaderCalls (Async.fetcher s))
         /\ Async.inFlight s' = S (Async.inFlight s)).
Proof.
  split; [ | split ].
  - intros s c pricing Hcache s'. subst s'.
    rewrite step_call_cached with (pricing := pricing) by exact Hcache.
    repeat split.
  - intros f entries c callers Hcache Hload s.
    destruct (run_sequential_first c callers f Hcache Hload)
      as (Hcalls & Hflight & _ & Hreturned).
    repeat split; assumption.
  - intros s c Hcache s'.
    destruct (step_call_empty s c Hcache) as (Hcalls & Hflight & _).
    split; assumption.
Qed.

Lemma loader_once_without_overlap_witness :
  let f := newPricingFetcher Fixture.changingLoader None in
  let s := Async.run (Async.init f)
             (Async.sequential [0%nat; 1%nat; 2%nat]) in
  (loaderCalls (Async.fetcher s) = 1%nat
   /\ Async.inFlight s = 0%nat
   /\ Async.returned s
      = [ (0%nat, Success [("gpt-5"%string, Fixture.gpt5)]);
          (1%nat, Success [("gpt-5"%string, Fixture.gpt5)]);
          (2%nat, Success [("gpt-5"%string, Fixture.gpt5)]) ])
  /\ loaderCalls (Async.fetcher (Async.step s (Async.Call 3%nat))) = 1%nat
  /\ loaderCalls
       (Async.fetcher (Async.step (Async.init f) (Async.Call 0%nat))) = 1%nat.
Proof.
  destruct loader_once_without_overlap as (Hcached & Hsequential & Hempty).
  split; [ | split ].
  - exact (Hsequential (newPricingFetcher Fixture.changingLoader None)
                       [("gpt-5"%string, Fixture.gpt5)]
                       0%nat [1%nat; 2%nat] eq_refl eq_refl).
  - exact (proj1 (Hcached
                    (Async.run
                       (Async.init (newPricingFetcher Fixture.changingLoader None))
                       (Async.sequential [0%nat; 1%nat; 2%nat]))
                    3%nat [("gpt-5"%string, Fixture.gpt5)] eq_refl)).
  - exact (proj1 (Hempty
                    (Async.init (newPricingFetcher Fixture.changingLoader None))
                    0%nat eq_refl)).
Defined.

(** * Further properties of the engine and of its callers *)

(** ** Cost of one token category *)

(** The cost in closed form: above the threshold the minimum is the
    threshold and the excess is positive. *)
Lemma calculateTieredCost_closed (t : number) (r r2 : option number)
    (threshold : number) :
  calculateTieredCost (Some t) r r2 threshold
  == if t <=? 0 then 0
     else match (if t >? threshold then r2 else None) with
          | Some a => (t - threshold) * a + threshold * (r ?? 0)
          | None => t * (r ?? 0)
          end.
Proof.
  unfold calculateTieredCost.
  destruct (t <=? 0); [ reflexivity | ].
  destruct (t >? threshold) eqn:E; tests.
  - destruct r2 as [a|], r as [b|]; simpl;
      try rewrite Q.min_r by lra; try rewrite Q.max_r by lra; ring.
  - destruct r as [b|]; simpl; ring.
Qed.

Lemma calculateTieredCost_nonneg (t r r2 : option number) (threshold : number) :
  Rates.nonNegative r -> Rates.nonNegative r2 -> 0 <= threshold ->
  0 <= calculateTieredCost t r r2 threshold.
Proof.
  intros Hr Hr2 HT. destruct t as [t|]; [ | simpl; lra ].
  rewrite calculateTieredCost_closed.
  destruct (t <=? 0) eqn:E0; tests; [ lra | ].
  destruct (t >? threshold) eqn:E1; tests;
    destruct r2 as [a|], r as [b|]; simpl in *; nra.
Qed.

(** X1.  At or below the threshold the above-threshold rate plays no part:
    the cost is the one computed without it, the count times the base rate
    (nothing when the base rate is absent). *)
Theorem above_rate_unused_up_to_threshold
    (t : number) (r r2 : option number) (threshold : number) :
  t <= threshold ->
  calculateTieredCost (Some t) r r2 threshold
  = calculateTieredCost (Some t) r None threshold
  /\ (0 <= t -> calculateTieredCost (Some t) r r2 threshold == t * (r ?? 0)).
Proof.
  intro Hle. split.
  - unfold calculateTieredCost.
    destruct (t <=? 0); [ reflexivity | ].
    destruct (t >? threshold) eqn:E; tests; [ | reflexivity ].
    exfalso. lra.
  - intro Hpos. rewrite calculateTieredCost_closed.
    destruct (t <=? 0) eqn:E0; tests.
    + assert (Hz : t == 0) by lra. rewrite Hz. ring.
    + destruct (t >? threshold) eqn:E1; tests; [ exfalso; lra | reflexivity ].
Qed.

Lemma above_rate_unused_up_to_threshold_witness :
  calculateTieredCost (Some 150000) (Some 3e-6) (Some 6e-6) 200000
  = calculateTieredCost (Some 150000) (Some 3e-6) None 200000
  /\ calculateTieredCost (Some 150000) (Some 3e-6) (Some 6e-6) 200000
     == 150000 * 3e-6.
Proof.
  destruct (@above_rate_unused_up_to_threshold
              150000 (Some 3e-6) (Some 6e-6) 200000 ltac:(discriminate))
    as [Hsame Hflat].
  split; [ exact Hsame | apply Hflat; discriminate ].
Defined.

(** X2.  With non-negative rates and a non-negative threshold, more tokens
    never cost less. *)
Theorem calculateTieredCost_monotone
    (t1 t2 : number) (r r2 : option number) (threshold : number) :
  Rates.nonNegative r -> Rates.nonNegative r2 -> 0 <= threshold ->
  t1 <= t2 ->
  calculateTieredCost (Some t1) r r2 threshold
  <= calculateTieredCost (Some t2) r r2 threshold.
Proof.
  intros Hr Hr2 HT Hle.
  destruct (t1 <=? 0) eqn:E1.
  - rewrite (calculateTieredCost_closed t1), E1.
    now apply calculateTieredCost_nonneg.
  - rewrite !calculateTieredCost_closed, E1. tests.
    destruct (t2 <=? 0) eqn:E2; tests; [ exfalso; lra | ].
    destruct (t1 >? threshold) eqn:G1, (t2 >? threshold) eqn:G2; tests;
      destruct r2 as [a|], r as [b|]; simpl in *; nra.
Qed.

Lemma calculateTieredCost_monotone_witness :
  calculateTieredCost (Some 150000) (Some 3e-6) (Some 6e-6) 200000
  <= calculateTieredCost (Some 250000) (Some 3e-6) (Some 6e-6) 200000.
Proof.
  apply calculateTieredCost_monotone; simpl; discriminate.
Defined.

(** ** Cost of a usage record *)

Lemma findApplicableTier_In (tiers : list Tier.t) (n : number) (default : Tier.t) :
  In (findApplicableTier tiers n default) (default :: tiers).
Proof.
  induction tiers as [|tier rest IH]; simpl.
  - now left.
  - destruct (inRange n tier).
    + right. now left.
    + destruct IH as [H | H]; [ now left | right; now right ].
Qed.

Lemma calculateInputLengthTieredCost_nonneg (n out cr : number)
    (bi bo : option number) (tiers : option (list Tier.t)) :
  0 <= out -> 0 <= cr ->
  Rates.nonNegative bi -> Rates.nonNegative bo ->
  match tiers with
  | Some l => Forall Rates.tierNonNegative l
  | None => True
  end ->
  let result := calculateInputLengthTieredCost n out cr bi bo tiers in
  0 <= TieredResult.inputCost result /\ 0 <= TieredResult.outputCost result.
Proof.
  intros Hout Hcr Hbi Hbo Htiers result. subst result.
  unfold calculateInputLengthTieredCost.
  destruct (n <=? 0) eqn:E; tests; [ simpl; split; lra | ].
  assert (Hbase : forall l, l = None \/ l = Some (@nil Tier.t) ->
            0 <= match bi with Some p => n * p | None => 0 end
            /\ 0 <= match bo with Some p => out * p | None => 0 end).
  { intros _ _. destruct bi as [p|], bo as [q|]; simpl in *; split; nra. }
  destruct tiers as [[|first rest]|]; simpl;
    [ now apply (Hbase (Some [])); right
    | | now apply (Hbase None); left ].
  pose proof (findApplicableTier_In (first :: rest) n first) as Hin.
  assert (Hsel : Rates.tierNonNegative
                   (findApplicableTier (first :: rest) n first)).
  { rewrite Forall_forall in Htiers. apply Htiers.
    destruct Hin as [<- | Hin]; [ now left | exact Hin ]. }
  destruct Hsel as (Hi & Ho & _). simpl in Hi, Ho. split; nra.
Qed.

(** X3.  When every rate of the record, tiers included, and every token
    count is non-negative, the cost is non-negative. *)
Theorem calculateCostFromPricing_nonneg (tokens : Tokens) (pricing : ModelPricing) :
  Rates.pricingNonNegative pricing ->
  Rates.tokensNonNegative tokens ->
  0 <= calculateCostFromPricing tokens pricing.
Proof.
  intros (Hi & Ho & Hcc & Hcr & Hia & Hoa & Hcca & Hcra & Htiers)
         (Hti & Hto & Htcc & Htcr).
  assert (HT : 0 <= DEFAULT_TIERED_THRESHOLD) by discriminate.
  pose proof (calculateTieredCost_nonneg (cache_creation_input_tokens tokens)
                _ _ Hcc Hcca HT) as H3.
  pose proof (calculateTieredCost_nonneg (cache_read_input_tokens tokens)
                _ _ Hcr Hcra HT) as H4.
  unfold calculateCostFromPricing, costSummands, hasTieredPricing.
  destruct (tiered_pricing pricing) as [tiers|] eqn:Ht;
    cbn [notNull inputCost outputCost cacheCreationCost cacheReadCost].
  - assert (Hread : 0 <= cache_read_input_tokens tokens ?? 0).
    { destruct (cache_read_input_tokens tokens); simpl in *; lra. }
    destruct (@calculateInputLengthTieredCost_nonneg
                (input_tokens tokens) (output_tokens tokens)
                (cache_read_input_tokens tokens ?? 0)
                (input_cost_per_token pricing) (output_cost_per_token pricing)
                (Some tiers) Hto Hread Hi Ho Htiers)
      as [H1 H2].
    lra.
  - pose proof (calculateTieredCost_nonneg (Some (input_tokens tokens))
                  _ _ Hi Hia HT) as H1.
    pose proof (calculateTieredCost_nonneg (Some (output_tokens tokens))
                  _ _ Ho Hoa HT) as H2.
    lra.
Qed.

Lemma calculateCostFromPricing_nonneg_witness :
  0 <= calculateCostFromPricing Fixture.tier2Tokens Fixture.katCoderPro.
Proof.
  apply calculateCostFromPricing_nonneg.
  - unfold Rates.pricingNonNegative, Rates.nonNegative. simpl.
    repeat split; try discriminate; try exact I.
    repeat constructor; simpl; discriminate.
  - unfold Rates.tokensNonNegative, Rates.nonNegative. simpl.
    repeat split; try discriminate; exact I.
Defined.

(** X4.  A usage record without a positive count costs nothing, whatever
    the pricing record holds. *)
Theorem no_tokens_no_cost (tokens : Tokens) (pricing : ModelPricing) :
  input_tokens tokens <= 0 ->
  output_tokens tokens <= 0 ->
  cache_creation_input_tokens tokens ?? 0 <= 0 ->
  cache_read_input_tokens tokens ?? 0 <= 0 ->
  calculateCostFromPricing tokens pricing == 0.
Proof.
  intros Hi Ho Hcc Hcr.
  assert (Hopt : forall (t : option number) r r2,
             t ?? 0 <= 0 ->
             calculateTieredCost t r r2 DEFAULT_TIERED_THRESHOLD = 0).
  { intros [t|] r r2 Ht; simpl in *; [ | reflexivity ].
    unfold calculateTieredCost. apply leb_true in Ht. now rewrite Ht. }
  unfold calculateCostFromPricing, costSummands, hasTieredPricing.
  destruct (tiered_pricing pricing) as [tiers|];
    cbn [notNull inputCost outputCost cacheCreationCost cacheReadCost].
  - unfold calculateInputLengthTieredCost.
    apply leb_true in Hi. rewrite Hi.
    cbn [TieredResult.inputCost TieredResult.outputCost].
    rewrite !Hopt by assumption. reflexivity.
  - rewrite (Hopt (Some (input_tokens tokens))) by assumption.
    rewrite (Hopt (Some (output_tokens tokens))) by assumption.
    rewrite !Hopt by assumption. reflexivity.
Qed.

Lemma no_tokens_no_cost_witness :
  calculateCostFromPricing (mkTokens 0 0 None (Some 0)) Fixture.katCoderPro == 0.
Proof.
  apply no_tokens_no_cost; simpl; discriminate.
Defined.

(** X5.  A record without [tiered_pricing] and without above-200k rates is
    billed flat: each non-negative count times its base rate, an absent rate
    or count contributing nothing, however large the counts. *)
Theorem flat_pricing_without_tiers (tokens : Tokens) (pricing : ModelPricing) :
  tiered_pricing pricing = None ->
  input_cost_per_token_above_200k_tokens pricing = None ->
  output_cost_per_token_above_200k_tokens pricing = None ->
  cache_creation_input_token_cost_above_200k_tokens pricing = None ->
  cache_read_input_token_cost_above_200k_tokens pricing = None ->
  Rates.tokensNonNegative tokens ->
  calculateCostFromPricing tokens pricing
  == input_tokens tokens * (input_cost_per_token pricing ?? 0)
     + output_tokens tokens * (output_cost_per_token pricing ?? 0)
     + (cache_creation_input_tokens tokens ?? 0)
       * (cache_creation_input_token_cost pricing ?? 0)
     + (cache_read_input_tokens tokens ?? 0)
       * (cache_read_input_token_cost pricing ?? 0).
Proof.
  intros Ht H1 H2 H3 H4 (Hti & Hto & Htcc & Htcr).
  assert (Hflat : forall (t : option number) r,
             Rates.nonNegative t ->
             calculateTieredCost t r None DEFAULT_TIERED_THRESHOLD
             == (t ?? 0) * (r ?? 0)).
  { intros [t|] r Hpos; [ | simpl; ring ].
    simpl in Hpos. cbn [orElse].
    rewrite calculateTieredCost_closed.
    destruct (t <=? 0) eqn:E; tests.
    - assert (Hz : t == 0) by lra. rewrite Hz. ring.
    - now destruct (t >? DEFAULT_TIERED_THRESHOLD). }
  unfold calculateCostFromPricing, costSummands, hasTieredPricing.
  rewrite Ht, H1, H2, H3, H4.
  cbn [notNull inputCost outputCost cacheCreationCost cacheReadCost].
  rewrite (Hflat (Some (input_tokens tokens))) by exact Hti.
  rewrite (Hflat (Some (output_tokens tokens))) by exact Hto.
  rewrite !Hflat by assumption. reflexivity.
Qed.

Lemma flat_pricing_without_tiers_witness :
  calculateCostFromPricing (mkTokens 300000 250000 None None)
    (mkModelPricing (Some 1e-6) (Some 2e-6) None None None None None
                    None None None None None None None)
  == 300000 * 1e-6 + 250000 * 2e-6 + 0 * 0 + 0 * 0.
Proof.
  apply (@flat_pricing_without_tiers
           (mkTokens 300000 250000 None None)
           (mkModelPricing (Some 1e-6) (Some 2e-6) None None None None None
                           None None None None None None None));
    try reflexivity.
  unfold Rates.tokensNonNegative. simpl.
  repeat split; try discriminate; exact I.
Defined.

(** ** Candidates of the exact phase *)

Lemma Set_add_In (candidates : list string) (x y : string) :
  In y (Set_add candidates x) <-> In y candidates \/ y = x.
Proof.
  unfold Set_add. destruct (existsb (String.eqb x) candidates) eqn:E.
  - split; [ now left | ].
    intros [H | ->]; [ exact H | ].
    apply existsb_exists in E. destruct E as (z & Hz & Heq).
    apply String.eqb_eq in Heq. now subst z.
  - rewrite in_app_iff. simpl. intuition congruence.
Qed.

Lemma Set_add_NoDup (candidates : list string) (x : string) :
  NoDup candidates -> NoDup (Set_add candidates x).
Proof.
  intro Hnd. unfold Set_add.
  destruct (existsb (String.eqb x) candidates) eqn:E; [ exact Hnd | ].
  apply NoDup_app; [ exact Hnd | repeat constructor; intros [] | ].
  intros z Hz [<- | []].
  assert (Hex : existsb (String.eqb x) candidates = true).
  { apply existsb_exists. exists x. split; [ exact Hz | apply String.eqb_refl ]. }
  congruence.
Qed.

Lemma Set_add_extends (candidates : list string) (x : string) :
  exists tail, Set_add candidates x = candidates ++ tail.
Proof.
  unfold Set_add. destruct (existsb (String.eqb x) candidates).
  - exists []. now rewrite app_nil_r.
  - now exists [x].
Qed.

Lemma candidates_fold (modelName : string) (prefixes : list string)
    (start : list string) :
  let result :=
    fold_left (fun candidates prefix =>
                 Set_add candidates (prefix ++ modelName)%string)
              prefixes start in
  (NoDup start -> NoDup result)
  /\ (exists tail, result = start ++ tail)
  /\ (forall c, In c result
                <-> In c start
                    \/ exists prefix, In prefix prefixes
                                      /\ c = (prefix ++ modelName)%string).
Proof.
  revert start. induction prefixes as [|p rest IH]; intro start; simpl.
  - split; [ tauto | split ].
    + exists []. now rewrite app_nil_r.
    + intro c. split; [ now left | intros [H | (? & [] & _)]; exact H ].
  - destruct (IH (Set_add start (p ++ modelName)%string))
      as (Hnd & (tail & Htail) & Hin).
    split; [ | split ].
    + intro H. apply Hnd. now apply Set_add_NoDup.
    + destruct (Set_add_extends start (p ++ modelName)%string) as [t Ht].
      exists (t ++ tail). rewrite Htail, Ht. now rewrite app_assoc.
    + intro c. rewrite Hin, Set_add_In. split.
      * intros [[H | ->] | (q & Hq & ->)].
        -- now left.
        -- right. exists p. split; [ now left | reflexivity ].
        -- right. exists q. split; [ now right | reflexivity ].
      * intros [H | (q & [<- | Hq] & ->)].
        -- left. now left.
        -- left. now right.
        -- right. now exists q.
Qed.

(** X6.  The candidates of the exact phase start with the model name
    itself, hold no string twice, and are exactly the model name and the
    model name behind each configured prefix. *)
Theorem createMatchingCandidates_exact (prefixes : list string)
    (modelName : string) :
  (exists rest, createMatchingCandidates prefixes modelName = modelName :: rest)
  /\ NoDup (createMatchingCandidates prefixes modelName)
  /\ (forall c,
         In c (createMatchingCandidates prefixes modelName)
         <-> c = modelName
             \/ exists prefix, In prefix prefixes
                               /\ c = (prefix ++ modelName)%string).
Proof.
  unfold createMatchingCandidates.
  destruct (candidates_fold modelName prefixes (Set_add [] modelName))
    as (Hnd & (tail & Htail) & Hin).
  split; [ | split ].
  - exists tail. exact Htail.
  - apply Hnd. repeat constructor. intros [].
  - intro c. rewrite Hin. simpl. intuition congruence.
Qed.

(** ** The exact phase *)

Lemma directMatch_app (pricing : PricingMap) (a b : list string) :
  directMatch pricing (a ++ b)
  = match directMatch pricing a with
    | Some v => Some v
    | None => directMatch pricing b
    end.
Proof.
  induction a as [|c a IH]; simpl; [ reflexivity | ].
  now destruct (Dict.get pricing c).
Qed.

Lemma directMatch_none (pricing : PricingMap) (candidates : list string) :
  directMatch pricing candidates = None
  <-> forall c, In c candidates -> Dict.get pricing c = None.
Proof.
  induction candidates as [|c rest IH]; simpl.
  - split; [ intros _ ? [] | reflexivity ].
  - destruct (Dict.get pricing c) eqn:E.
    + split; [ discriminate | ].
      intro H. specialize (H c (or_introl eq_refl)). congruence.
    + rewrite IH. split.
      * intros H x [<- | Hx]; [ exact E | now apply H ].
      * intros H x Hx. apply H. now right.
Qed.

Lemma directMatch_Set_add (pricing : PricingMap) (candidates : list string)
    (x : string) :
  directMatch pricing (Set_add candidates x)
  = directMatch pricing (candidates ++ [x]).
Proof.
  unfold Set_add.
  destruct (existsb (String.eqb x) candidates) eqn:E; [ | reflexivity ].
  rewrite directMatch_app.
  destruct (directMatch pricing candidates) eqn:Hd; [ reflexivity | ].
  apply existsb_exists in E. destruct E as (z & Hz & Heq).
  apply String.eqb_eq in Heq. subst z.
  simpl. now rewrite (proj1 (directMatch_none pricing candidates) Hd x Hz).
Qed.

(** Leaving duplicates out does not change which candidate hits first. *)
Lemma directMatch_candidates (pricing : PricingMap) (prefixes : list string)
    (modelName : string) :
  directMatch pricing (createMatchingCandidates prefixes modelName)
  = directMatch pricing
      (modelName :: map (fun prefix => (prefix ++ modelName)%string) prefixes).
Proof.
  unfold createMatchingCandidates.
  change (Set_add [] modelName) with [modelName].
  change (modelName :: map (fun prefix => (prefix ++ modelName)%string) prefixes)
    with ([modelName]
            ++ map (fun prefix => (prefix ++ modelName)%string) prefixes).
  generalize [modelName] as start.
  induction prefixes as [|p rest IH]; intro start; simpl.
  - now rewrite app_nil_r.
  - rewrite IH, !directMatch_app, directMatch_Set_add, directMatch_app.
    simpl. destruct (directMatch pricing start); [ reflexivity | ].
    now destruct (Dict.get pricing (p ++ modelName)%string).
Qed.

(** X7.  The exact phase tries the model name as it is first, then the
    prefixed names in the order of the prefix list: a key equal to the model
    name wins over everything else, and otherwise the first prefix whose
    prefixed name is a key decides. *)
Theorem exact_phase_order :
  (forall prefixes pricing modelName value,
      Dict.get pricing modelName = Some value ->
      resolvePricing prefixes pricing modelName = Some value)
  /\ (forall before prefix after pricing modelName value,
         Dict.get pricing modelName = None ->
         (forall earlier, In earlier before ->
                          Dict.get pricing (earlier ++ modelName)%string = None) ->
         Dict.get pricing (prefix ++ modelName)%string = Some value ->
         resolvePricing (before ++ prefix :: after) pricing modelName
         = Some value).
Proof.
  split.
  - intros prefixes pricing modelName value Hget.
    unfold resolvePricing. rewrite directMatch_candidates. simpl.
    now rewrite Hget.
  - intros before prefix after pricing modelName value Hraw Hbefore Hget.
    unfold resolvePricing. rewrite directMatch_candidates. simpl.
    rewrite Hraw, map_app, directMatch_app.
    assert (Hnone : directMatch pricing
                      (map (fun p => (p ++ modelName)%string) before) = None).
    { apply directMatch_none. intros c Hc.
      apply in_map_iff in Hc. destruct Hc as (p & <- & Hp). now apply Hbefore. }
    rewrite Hnone. simpl. now rewrite Hget.
Qed.

Lemma exact_phase_order_witness :
  resolvePricing DEFAULT_PROVIDER_PREFIXES
    [ ("zai/glm-4.5"%string, Fixture.katCoderPro);
      ("glm-4.5"%string, Fixture.gpt5) ]
    "glm-4.5"
  = Some Fixture.gpt5
  /\ resolvePricing [ "openai/"; "zai/"; "azure/" ]%string
       [ ("azure/glm-4.5"%string, Fixture.gpt5);
         ("zai/glm-4.5"%string, Fixture.katCoderPro) ]
       "glm-4.5"
     = Some Fixture.katCoderPro.
Proof.
  destruct exact_phase_order as [Hraw Hprefixed].
  split.
  - apply Hraw. reflexivity.
  - apply (Hprefixed [ "openai/"%string ] "zai/"%string [ "azure/"%string ]).
    + reflexivity.
    + intros earlier [<- | []]. reflexivity.
    + reflexivity.
Defined.

(** ** What the resolver returns *)

Lemma Dict_get_In (V : Type) (m : Dict.t V) (key : string) (value : V) :
  Dict.get m key = Some value -> In (key, value) m.
Proof.
  induction m as [|[k v] rest IH]; simpl; [ discriminate | ].
  destruct (String.eqb k key) eqn:E.
  - apply String.eqb_eq in E. intro H. left. congruence.
  - intro H. right. now apply IH.
Qed.

Lemma Dict_get_key (V : Type) (m : Dict.t V) (key : string) :
  In key (Dict.keys m) -> exists value, Dict.get m key = Some value.
Proof.
  induction m as [|[k v] rest IH]; simpl; [ intros [] | ].
  destruct (String.eqb k key) eqn:E; [ now exists v | ].
  intros [H | H]; [ | now apply IH ].
  apply String.eqb_neq in E. congruence.
Qed.

Lemma directMatch_sound (pricing : PricingMap) (candidates : list string)
    (value : ModelPricing) :
  directMatch pricing candidates = Some value ->
  exists c, In c candidates /\ In (c, value) pricing.
Proof.
  induction candidates as [|c rest IH]; simpl; [ discriminate | ].
  destruct (Dict.get pricing c) eqn:E.
  - intro H. exists c. split; [ now left | ].
    apply Dict_get_In. congruence.
  - intro H. destruct (IH H) as (c' & Hc' & Hin).
    exists c'. split; [ now right | exact Hin ].
Qed.

Lemma exactOrSuffixMatch_sound (pricing : PricingMap) (lower : string)
    (value : ModelPricing) :
  exactOrSuffixMatch pricing lower = Some value ->
  exists key, In (key, value) pricing
              /\ exactOrSuffix (Str.toLowerCase key) lower = true.
Proof.
  induction pricing as [|[k v] rest IH]; simpl; [ discriminate | ].
  destruct (exactOrSuffix (Str.toLowerCase k) lower) eqn:E.
  - intro H. exists k. split; [ left; congruence | exact E ].
  - intro H. destruct (IH H) as (key & Hin & Hhit).
    exists key. split; [ now right | exact Hhit ].
Qed.

Lemma bestMatchLoop_sound (pricing : PricingMap) (m : string)
    (bestMatch : option ModelPricing) (bestMatchScore : Z)
    (value : ModelPricing) :
  fst (bestMatchLoop pricing m bestMatch bestMatchScore) = Some value ->
  bestMatch = Some value \/ exists key, In (key, value) pricing.
Proof.
  revert bestMatch bestMatchScore.
  induction pricing as [|[k v] rest IH]; intros bestMatch bestMatchScore;
    simpl; [ now left | ].
  destruct (matchScore (Str.toLowerCase k) m >? bestMatchScore)%Z; intro H;
    destruct (IH _ _ H) as [Heq | [key Hin]].
  - right. exists k. left. congruence.
  - right. exists key. now right.
  - now left.
  - right. exists key. now right.
Qed.

(** X8.  The resolver only hands out records of the dataset: whatever it
    returns is stored there under some key, and on an empty dataset it
    returns nothing. *)
Theorem resolvePricing_from_dataset :
  (forall prefixes pricing modelName value,
      resolvePricing prefixes pricing modelName = Some value ->
      exists key, In (key, value) pricing)
  /\ (forall prefixes modelName, resolvePricing prefixes [] modelName = None).
Proof.
  split.
  - intros prefixes pricing modelName value. unfold resolvePricing.
    destruct (directMatch pricing _) as [d|] eqn:Hd.
    + intro H. destruct (directMatch_sound _ _ Hd) as (c & _ & Hin).
      exists c. congruence.
    + destruct (exactOrSuffixMatch pricing _) as [e|] eqn:He.
      * intro H. destruct (exactOrSuffixMatch_sound _ _ He) as (key & Hin & _).
        exists key. congruence.
      * intro H. unfold fuzzyMatch in H.
        destruct (bestMatchLoop_sound _ _ _ _ H) as [Habs | Hin];
          [ discriminate | exact Hin ].
  - intros prefixes modelName. unfold resolvePricing.
    rewrite directMatch_candidates. simpl.
    assert (Hnone : forall l, directMatch [] l = None)
      by (induction l; simpl; auto).
    now rewrite Hnone.
Qed.

Lemma resolvePricing_from_dataset_witness :
  exists key,
    In (key, Fixture.katCoderPro)
       [ ("openrouter/glm-4.5-air"%string, emptyPricing);
         ("zai/glm-4.5"%string, Fixture.katCoderPro) ].
Proof.
  destruct resolvePricing_from_dataset as [Hsound _].
  apply (Hsound DEFAULT_PROVIDER_PREFIXES
                [ ("openrouter/glm-4.5-air"%string, emptyPricing);
                  ("zai/glm-4.5"%string, Fixture.katCoderPro) ]
                "GLM-4"%string).
  reflexivity.
Defined.

Lemma includes_suffix (a m : string) : Str.includes (a ++ m) m = true.
Proof.
  apply includes_spec. exists a, ""%string. now rewrite append_empty_r.
Qed.

Lemma includes_refl (m : string) : Str.includes m m = true.
Proof. exact (includes_suffix "" m). Qed.

Lemma matchScore_positive (k m : string) :
  (0 < matchScore k m)%Z
  <-> Str.includes k m = true \/ Str.includes m k = true.
Proof.
  unfold matchScore.
  destruct (Str.includes k m); simpl.
  - split; [ now left | intros _ ].
    destruct (_ || _); [ reflexivity | ].
    destruct (negb _); [ | reflexivity ].
    now destruct (Str.startsWith k "zai/").
  - destruct (Str.includes m k); split;
      try reflexivity; try (now right); try discriminate.
    intros [H | H]; discriminate.
Qed.

(** X9.  The resolver reports not-found exactly when neither the model
    name nor a prefixed model name is a key of the dataset, and no key
    contains the query or is contained in it, letter case aside.  As soon as
    one key and the query are related by containment, some record is
    returned. *)
Theorem resolvePricing_none_iff (prefixes : list string) (pricing : PricingMap)
    (modelName : string) :
  resolvePricing prefixes pricing modelName = None
  <-> Dict.get pricing modelName = None
      /\ Forall (fun prefix =>
                   Dict.get pricing (prefix ++ modelName)%string = None)
                prefixes
      /\ Forall (fun kv =>
                   Str.includes (Str.toLowerCase (fst kv))
                                (Str.toLowerCase modelName) = false
                   /\ Str.includes (Str.toLowerCase modelName)
                                   (Str.toLowerCase (fst kv)) = false)
                pricing.
Proof.
  set (m := Str.toLowerCase modelName).
  assert (Hscore : forall kv : string * ModelPricing,
             (Reference.keyScore m kv <= 0)%Z
             <-> Str.includes (Str.toLowerCase (fst kv)) m = false
                 /\ Str.includes m (Str.toLowerCase (fst kv)) = false).
  { intro kv. unfold Reference.keyScore. rewrite <- matchScore_reference.
    pose proof (matchScore_positive (Str.toLowerCase (fst kv)) m) as Hpos.
    destruct (Str.includes (Str.toLowerCase (fst kv)) m),
             (Str.includes m (Str.toLowerCase (fst kv)));
      split; intro H; try (destruct H; discriminate);
      try (split; reflexivity); lia. }
  assert (Hexact :
            directMatch pricing (createMatchingCandidates prefixes modelName)
            = None
            <-> Dict.get pricing modelName = None
                /\ Forall (fun prefix =>
                             Dict.get pricing (prefix ++ modelName)%string
                             = None) prefixes).
  { rewrite directMatch_candidates, directMatch_none. split.
    - intro H. split; [ apply H; now left | ].
      apply Forall_forall. intros prefix Hprefix. apply H. right.
      apply in_map_iff. now exists prefix.
    - intros [Hraw Hprefixed] c [<- | Hc]; [ exact Hraw | ].
      apply in_map_iff in Hc. destruct Hc as (prefix & <- & Hprefix).
      rewrite Forall_forall in Hprefixed. now apply Hprefixed. }
  split.
  - unfold resolvePricing. fold m.
    destruct (directMatch pricing (createMatchingCandidates prefixes modelName))
      eqn:Hdirect; [ discriminate | ].
    destruct (proj1 Hexact eq_refl) as [Hraw Hprefixed].
    destruct (exactOrSuffixMatch pricing m); [ discriminate | ].
    rewrite fuzzyMatch_reference. unfold Reference.fuzzy.
    intro Hnone. split; [ exact Hraw | split; [ exact Hprefixed | ] ].
    revert Hnone.
    destruct (Z.eqb_spec (Reference.maxScore pricing m) 0) as [Hzero|Hne].
    + intros _. pose proof (maxScore_bound m pricing) as Hbound.
      rewrite Hzero in Hbound.
      apply Forall_impl with (2 := Hbound). intros kv. apply Hscore.
    + pose proof (maxScore_nonneg m pricing) as Hnonneg.
      destruct (firstWithScore_best m pricing) as (? & ? & ? & ? & _ & Hsome & _);
        [ lia | ].
      rewrite Hsome. discriminate.
  - intros (Hraw & Hprefixed & Hall). rewrite Forall_forall in Hall.
    unfold resolvePricing. fold m.
    rewrite (proj2 Hexact (conj Hraw Hprefixed)).
    clear Hexact.
    assert (Hsuffix : exactOrSuffixMatch pricing m = None).
    { destruct (exactOrSuffixMatch pricing m) as [v|] eqn:He;
        [ exfalso | reflexivity ].
      destruct (exactOrSuffixMatch_sound _ _ He) as (key & Hin & Hhit).
      destruct (Hall _ Hin) as [Hinc _]. simpl in Hinc.
      unfold exactOrSuffix in Hhit. apply orb_true_iff in Hhit.
      destruct Hhit as [Heq | Hend].
      - apply String.eqb_eq in Heq. rewrite Heq in Hinc.
        rewrite includes_refl in Hinc. discriminate.
      - apply endsWith_slash_before in Hend. congruence. }
    rewrite Hsuffix, fuzzyMatch_reference. unfold Reference.fuzzy.
    assert (Hzero : Reference.maxScore pricing m = 0%Z).
    { pose proof (maxScore_nonneg m pricing) as Hnonneg.
      destruct (Z.eq_dec (Reference.maxScore pricing m) 0) as [|Hne];
        [ assumption | exfalso ].
      destruct (firstWithScore_best m pricing)
        as (before & key & value & after & Heq & _ & Hkey & _); [ lia | ].
      assert (Hin : In (key, value) pricing).
      { rewrite Heq. apply in_or_app. right. now left. }
      pose proof (proj2 (Hscore (key, value)) (Hall _ Hin)) as Hle.
      unfold Reference.keyScore in Hle. simpl in Hle. lia. }
    now rewrite Hzero.
Qed.

(** ** Loading, failing and reloading *)

(** X10.  A failed load is not cached: the call returns the
    [Failed to load pricing data] error with the loader's reason as cause,
    the cache stays empty, and the next call invokes the loader again and
    succeeds if the loader then resolves. *)
Theorem failed_load_is_retried (f : PricingFetcher) (reason : string)
    (entries : list (string * ModelPricing)) :
  cachedPricing f = None ->
  offlineLoader f (loaderCalls f) = Rejected reason ->
  offlineLoader f (S (loaderCalls f)) = Resolved entries ->
  let (first, f1) := ensurePricingLoaded f in
  let (second, f2) := ensurePricingLoaded f1 in
  first = Failure (mkError "Failed to load pricing data" (Some reason))
  /\ cachedPricing f1 = None
  /\ second = Success (Dict.ofEntries entries)
  /\ cachedPricing f2 = Some (Dict.ofEntries entries)
  /\ loaderCalls f2 = S (S (loaderCalls f)).
Proof.
  intros Hcache Hfail Hnext.
  unfold ensurePricingLoaded, ensurePricingLoaded_start.
  rewrite Hcache, Hfail. simpl. rewrite Hnext. simpl.
  repeat split.
Qed.

Lemma failed_load_is_retried_witness :
  let f := newPricingFetcher
             (fun n => match n with
                       | O => Rejected "ENOENT"
                       | _ => Resolved [("gpt-5"%string, Fixture.gpt5)]
                       end) None in
  fst (ensurePricingLoaded f)
  = Failure (mkError "Failed to load pricing data" (Some "ENOENT"%string))
  /\ fst (ensurePricingLoaded (snd (ensurePricingLoaded f)))
     = Success [("gpt-5"%string, Fixture.gpt5)].
Proof.
  pose proof (@failed_load_is_retried
                (newPricingFetcher
                   (fun n => match n with
                             | O => Rejected "ENOENT"
                             | _ => Resolved [("gpt-5"%string, Fixture.gpt5)]
                             end) None)
                "ENOENT"%string [("gpt-5"%string, Fixture.gpt5)]
                eq_refl eq_refl eq_refl) as H.
  simpl in H. destruct H as (H1 & _ & H2 & _).
  split; [ exact H1 | exact H2 ].
Defined.

(** X11.  [clearCache] (and so [Symbol.dispose]) only empties the cache:
    the loader, the prefixes and the count of loads stay.  The next call
    after it invokes the loader once more and returns what the loader
    answers then, not the dataset that was cached. *)
Theorem clearCache_forces_reload (f : PricingFetcher)
    (entries : list (string * ModelPricing)) :
  offlineLoader f (loaderCalls f) = Resolved entries ->
  let (reloaded, f') := ensurePricingLoaded (clearCache f) in
  reloaded = Success (Dict.ofEntries entries)
  /\ cachedPricing f' = Some (Dict.ofEntries entries)
  /\ loaderCalls f' = S (loaderCalls f)
  /\ providerPrefixes f' = providerPrefixes f
  /\ dispose f = clearCache f.
Proof.
  intro Hload.
  unfold ensurePricingLoaded, ensurePricingLoaded_start, clearCache. simpl.
  rewrite Hload. simpl. repeat split.
Qed.

Lemma clearCache_forces_reload_witness :
  let loaded :=
    snd (ensurePricingLoaded (newPricingFetcher Fixture.changingLoader None)) in
  cachedPricing loaded = Some [("gpt-5"%string, Fixture.gpt5)]
  /\ fst (ensurePricingLoaded (clearCache loaded))
     = Success [ ("gpt-5"%string, Fixture.gpt5);
                 ("kat-coder-pro-v1"%string, Fixture.katCoderPro) ].
Proof.
  split; [ reflexivity | ].
  pose proof (@clearCache_forces_reload
                (snd (ensurePricingLoaded
                        (newPricingFetcher Fixture.changingLoader None)))
                [ ("gpt-5"%string, Fixture.gpt5);
                  ("kat-coder-pro-v1"%string, Fixture.katCoderPro) ]
                eq_refl) as H.
  simpl in H. exact (proj1 H).
Defined.

(** X12.  When the load fails, every lookup on a non-empty model name
    fails with the load error: [getModelPricing], [getModelContextLimit]
    and [calculateCostFromTokens] all return
    [Failed to load pricing data], never not-found and never a cost. *)
Theorem load_failure_propagates (f : PricingFetcher) (reason : string)
    (tokens : Tokens) (modelName : string) :
  cachedPricing f = None ->
  offlineLoader f (loaderCalls f) = Rejected reason ->
  modelName <> ""%string ->
  let error := mkError "Failed to load pricing data" (Some reason) in
  fst (fetchModelPricing f) = Failure error
  /\ fst (getModelPricing f modelName) = Failure error
  /\ fst (getModelContextLimit f modelName) = Failure error
  /\ fst (calculateCostFromTokens f tokens (Some modelName)) = Failure error.
Proof.
  intros Hcache Hfail Hne error.
  assert (Hload : ensurePricingLoaded f = (Failure error, 
                    mkFetcher None (offlineLoader f) (providerPrefixes f)
                              (S (loaderCalls f)))).
  { unfold ensurePricingLoaded, ensurePricingLoaded_start.
    now rewrite Hcache, Hfail. }
  assert (Hget : getModelPricing f modelName
                 = (Failure error,
                    mkFetcher None (offlineLoader f) (providerPrefixes f)
                              (S (loaderCalls f)))).
  { unfold getModelPricing. now rewrite Hload. }
  repeat split.
  - unfold fetchModelPricing. now rewrite Hload.
  - now rewrite Hget.
  - unfold getModelContextLimit. now rewrite Hget.
  - unfold calculateCostFromTokens.
    apply String.eqb_neq in Hne. rewrite Hne. now rewrite Hget.
Qed.

Lemma load_failure_propagates_witness :
  fst (calculateCostFromTokens
         (newPricingFetcher (fun _ => Rejected "ENOENT") None)
         (mkTokens 1000 500 None None) (Some "gpt-5"%string))
  = Failure (mkError "Failed to load pricing data" (Some "ENOENT"%string)).
Proof.
  apply (@load_failure_propagates
           (newPricingFetcher (fun _ => Rejected "ENOENT") None)
           "ENOENT"%string (mkTokens 1000 500 None None) "gpt-5"%string);
    [ reflexivity | reflexivity | discriminate ].
Defined.

(** ** Any interleaving of calls *)

Section ScheduleFacts.

Import Async.

Lemma take_some (c : Caller) (pending : list (Caller * LoaderOutcome))
    (outcome : LoaderOutcome) (rest : list (Caller * LoaderOutcome)) :
  take c pending = Some (outcome, rest) ->
  In (c, outcome) pending
  /\ List.length pending = S (List.length rest)
  /\ (forall x, In x rest -> In x pending).
Proof.
  revert outcome rest.
  induction pending as [|[c' o] tail IH]; intros outcome rest; simpl;
    [ discriminate | ].
  destruct (Nat.eqb c c') eqn:E.
  - apply Nat.eqb_eq in E. subst c'. intro H. inversion H; subst.
    split; [ now left | split; [ reflexivity | intros x Hx; now right ] ].
  - destruct (take c tail) as [[o' rest']|]; [ | discriminate ].
    intro H. inversion H; subst.
    destruct (IH _ _ eq_refl) as (Hin & Hlen & Hsub).
    split; [ now right | split; [ simpl; now rewrite Hlen | ] ].
    intros x [<- | Hx]; [ now left | right; now apply Hsub ].
Qed.

Lemma callsStarted_cons (e : Event) (schedule : list Event) :
  callsStarted (e :: schedule) = (callsStarted [e] + callsStarted schedule)%nat.
Proof. destruct e; reflexivity. Qed.

(** The loader is invoked at most once per call. *)
Lemma run_loads_bounded (schedule : list Event) (s : State) :
  (loaderCalls (fetcher s) <= loaderCalls (fetcher (run s schedule))
   <= loaderCalls (fetcher s) + callsStarted schedule)%nat.
Proof.
  revert s. induction schedule as [|e rest IH]; intro s.
  - simpl. lia.
  - rewrite run_cons, (callsStarted_cons e rest).
    specialize (IH (step s e)).
    assert (Hstep : (loaderCalls (fetcher s) <= loaderCalls (fetcher (step s e))
                     <= loaderCalls (fetcher s) + callsStarted [e])%nat).
    { destruct e as [c|c]; simpl.
      - unfold ensurePricingLoaded_start.
        destruct (cachedPricing (fetcher s)); simpl; lia.
      - destruct (take c (pending s)) as [[outcome rest']|]; [ | lia ].
        destruct outcome; simpl; lia. }
    lia.
Qed.

(** A call on a filled cache does not touch the loader, and resuming a
    suspended call never empties the cache. *)
Lemma step_cached (s : State) (e : Event) :
  cachedPricing (fetcher s) <> None ->
  loaderCalls (fetcher (step s e)) = loaderCalls (fetcher s)
  /\ cachedPricing (fetcher (step s e)) <> None.
Proof.
  intro Hcache. destruct e as [c|c]; simpl.
  - unfold ensurePricingLoaded_start.
    destruct (cachedPricing (fetcher s)) eqn:E; [ | contradiction ].
    simpl. rewrite E. split; [ reflexivity | discriminate ].
  - destruct (take c (pending s)) as [[outcome rest]|]; [ | now split ].
    destruct outcome; simpl; [ split; [ reflexivity | discriminate ] | now split ].
Qed.

Lemma run_cached (schedule : list Event) (s : State) :
  cachedPricing (fetcher s) <> None ->
  loaderCalls (fetcher (run s schedule)) = loaderCalls (fetcher s)
  /\ cachedPricing (fetcher (run s schedule)) <> None.
Proof.
  revert s. induction schedule as [|e rest IH]; intros s Hcache.
  - now split.
  - rewrite run_cons.
    destruct (step_cached s e Hcache) as [Hcalls Hstill].
    destruct (IH (step s e) Hstill) as [Hcalls' Hstill'].
    split; [ congruence | exact Hstill' ].
Qed.

(** With a filled cache and nothing in flight, a call returns the cached
    dataset at once and a settlement has nothing to resume. *)
Lemma run_idle (schedule : list Event) (s : State) (pricing : PricingMap) :
  cachedPricing (fetcher s) = Some pricing ->
  pending s = [] ->
  fetcher (run s schedule) = fetcher s
  /\ pending (run s schedule) = []
  /\ exists later,
       returned (run s schedule) = returned s ++ later
       /\ Forall (fun cr => snd cr = Success pricing) later
       /\ List.length later = callsStarted schedule.
Proof.
  revert s. induction schedule as [|e rest IH]; intros s Hcache Hpending.
  - split; [ reflexivity | split; [ exact Hpending | ] ].
    exists []. split; [ now rewrite app_nil_r | now split ].
  - rewrite run_cons, (callsStarted_cons e rest). destruct e as [c|c].
    + assert (Hstep : step s (Call c)
                      = mkState (fetcher s) []
                                (returned s ++ [(c, Success pricing)])).
      { simpl. unfold ensurePricingLoaded_start.
        now rewrite Hcache, Hpending. }
      rewrite Hstep.
      destruct (IH (mkState (fetcher s) []
                            (returned s ++ [(c, Success pricing)]))
                   Hcache eq_refl)
        as (Hfetcher & Hnone & later & Hreturned & Hall & Hlen).
      split; [ exact Hfetcher | split; [ exact Hnone | ] ].
      exists ((c, Success pricing) :: later).
      split; [ | split ].
      * rewrite Hreturned. simpl. now rewrite <- app_assoc.
      * now constructor.
      * simpl. now rewrite Hlen.
    + assert (Hstep : step s (Settle c) = s).
      { simpl. now rewrite Hpending. }
      rewrite Hstep. now apply IH.
Qed.

End ScheduleFacts.

(** X13.  Under every interleaving of calls on one fetcher the loader is
    invoked at most once per started call.  Once the cache holds a dataset,
    no later call invokes the loader, whatever is still in flight, and the
    cache is never empty again; with nothing in flight the cache keeps that
    dataset and every later call returns it without suspending. *)
Theorem loader_idle_once_cached :
  (forall (f : PricingFetcher) (schedule : list Async.Event),
      let s := Async.run (Async.init f) schedule in
      (loaderCalls f <= loaderCalls (Async.fetcher s)
       <= loaderCalls f + callsStarted schedule)%nat)
  /\ (forall (s : Async.State) (pricing : PricingMap)
             (schedule : list Async.Event),
         cachedPricing (Async.fetcher s) = Some pricing ->
         let s' := Async.run s schedule in
         loaderCalls (Async.fetcher s') = loaderCalls (Async.fetcher s)
         /\ cachedPricing (Async.fetcher s') <> None
         /\ (Async.pending s = [] ->
             cachedPricing (Async.fetcher s') = Some pricing
             /\ Async.pending s' = []
             /\ exists later,
                  Async.returned s' = Async.returned s ++ later
                  /\ Forall (fun cr => snd cr = Success pricing) later
                  /\ List.length later = callsStarted schedule)).
Proof.
  split.
  - intros f schedule. apply (run_loads_bounded schedule (Async.init f)).
  - intros s pricing schedule Hcache s'. subst s'.
    assert (Hfilled : cachedPricing (Async.fetcher s) <> None)
      by (rewrite Hcache; discriminate).
    destruct (run_cached schedule s Hfilled) as [Hcalls Hstill].
    split; [ exact Hcalls | split; [ exact Hstill | ] ].
    intro Hpending.
    destruct (run_idle schedule s Hcache Hpending)
      as (Hfetcher & Hnone & later & Hreturned & Hall & Hlen).
    split; [ now rewrite Hfetcher | split; [ exact Hnone | ] ].
    now exists later.
Qed.

Lemma loader_idle_once_cached_witness :
  let pricing := [ ("gpt-5"%string, Fixture.gpt5) ] in
  let s :=
    Async.mkState
      (mkFetcher (Some pricing) Fixture.changingLoader
                 DEFAULT_PROVIDER_PREFIXES 1)
      [ (7%nat, Resolved [ ("kat-coder-pro-v1"%string, Fixture.katCoderPro) ]) ]
      [] in
  let s' := Async.run s [ Async.Call 1%nat; Async.Settle 7%nat; Async.Call 2%nat ] in
  loaderCalls (Async.fetcher s') = 1%nat
  /\ cachedPricing (Async.fetcher s') <> None.
Proof.
  intros pricing s s'.
  destruct loader_idle_once_cached as [_ Hcached].
  destruct (Hcached s pricing
                    [ Async.Call 1%nat; Async.Settle 7%nat; Async.Call 2%nat ] eq_refl)
    as (Hcalls & Hstill & _).
  split; [ exact Hcalls | exact Hstill ].
Defined.

Section ConstantLoader.

Import Async.

Variable entries : list (string * ModelPricing).

Lemma step_stable (s : State) (e : Event) :
  loaderStable entries s -> loaderStable entries (step s e).
Proof.
  intros (Hloader & Hpending & Hreturned & Hcache).
  unfold loaderStable. destruct e as [c|c]; simpl.
  - unfold ensurePricingLoaded_start.
    destruct (cachedPricing (fetcher s)) as [pricing|] eqn:E; simpl.
    + destruct Hcache as [Hc | Hc]; [ discriminate | ].
      inversion Hc; subst pricing.
      split; [ exact Hloader | split; [ exact Hpending | split ] ].
      * apply Forall_app. split; [ exact Hreturned | now repeat constructor ].
      * right. exact E.
    + split; [ exact Hloader | split; [ | split; [ exact Hreturned | now left ] ] ].
      apply Forall_app. split; [ exact Hpending | ].
      repeat constructor. simpl. apply Hloader.
  - destruct (take c (pending s)) as [[outcome rest]|] eqn:E;
      [ | split; [ exact Hloader | split; [ exact Hpending | now split ] ] ].
    destruct (take_some _ _ E) as (Hin & _ & Hsub).
    rewrite Forall_forall in Hpending.
    pose proof (Hpending _ Hin) as Houtcome. simpl in Houtcome. subst outcome.
    simpl.
    split; [ exact Hloader | split; [ | split; [ | now right ] ] ].
    + apply Forall_forall. intros x Hx. apply Hpending. now apply Hsub.
    + apply Forall_app. split; [ exact Hreturned | now repeat constructor ].
Qed.

Lemma run_stable (schedule : list Event) (s : State) :
  loaderStable entries s -> loaderStable entries (run s schedule).
Proof.
  revert s. induction schedule as [|e rest IH]; intros s Hs; [ exact Hs | ].
  rewrite run_cons. apply IH. now apply step_stable.
Qed.

Lemma constant_loader_stable (prefixes : option (list string))
    (schedule : list Event) :
  let s := run (init (Ccusage.CcusagePricingFetcher entries prefixes)) schedule in
  Forall (fun cr => snd cr = Success (Dict.ofEntries entries)) (returned s)
  /\ (cachedPricing (fetcher s) = None
      \/ cachedPricing (fetcher s) = Some (Dict.ofEntries entries)).
Proof.
  intro s.
  assert (Hs : loaderStable entries s).
  { apply run_stable. unfold loaderStable. simpl.
    split; [ reflexivity | split; [ constructor | split; [ constructor | now left ] ] ]. }
  destruct Hs as (_ & _ & Hreturned & Hcache). now split.
Qed.

End ConstantLoader.

(** X14.  A fetcher whose loader resolves with the same record at every
    invocation, as [CcusagePricingFetcher] does with its prefetched record,
    gives every caller the same dataset in every interleaving of calls, and
    its cache never holds anything else. *)
Theorem constant_loader_same_dataset
    (entries : list (string * ModelPricing)) (prefixes : option (list string))
    (schedule : list Async.Event) :
  let s := Async.run
             (Async.init (Ccusage.CcusagePricingFetcher entries prefixes))
             schedule in
  Forall (fun cr => snd cr = Success (Dict.ofEntries entries)) (Async.returned s)
  /\ (cachedPricing (Async.fetcher s) = None
      \/ cachedPricing (Async.fetcher s) = Some (Dict.ofEntries entries)).
Proof. apply constant_loader_stable. Qed.

(** ** Dictionaries, the loaded dataset and its filter *)

Lemma Dict_keys_set (V : Type) (m : Dict.t V) (key : string) (value : V) :
  Dict.keys (Dict.set m key value)
  = if existsb (String.eqb key) (Dict.keys m) then Dict.keys m
    else Dict.keys m ++ [key].
Proof.
  induction m as [|[k v] rest IH]; simpl; [ reflexivity | ].
  rewrite (String.eqb_sym key k).
  destruct (String.eqb k key) eqn:E; simpl.
  - reflexivity.
  - rewrite IH. now destruct (existsb (String.eqb key) (Dict.keys rest)).
Qed.

Lemma Dict_set_NoDup (V : Type) (m : Dict.t V) (key : string) (value : V) :
  NoDup (Dict.keys m) -> NoDup (Dict.keys (Dict.set m key value)).
Proof.
  intro Hnd. rewrite Dict_keys_set.
  destruct (existsb (String.eqb key) (Dict.keys m)) eqn:E; [ exact Hnd | ].
  apply NoDup_app; [ exact Hnd | repeat constructor; intros [] | ].
  intros z Hz [<- | []].
  assert (Hex : existsb (String.eqb key) (Dict.keys m) = true).
  { apply existsb_exists. exists key. split; [ exact Hz | apply String.eqb_refl ]. }
  congruence.
Qed.

Lemma Dict_get_set (V : Type) (m : Dict.t V) (key key' : string) (value : V) :
  Dict.get (Dict.set m key value) key'
  = if String.eqb key key' then Some value else Dict.get m key'.
Proof.
  induction m as [|[k v] rest IH]; simpl.
  - reflexivity.
  - destruct (String.eqb k key) eqn:E; simpl.
    + apply String.eqb_eq in E. subst k.
      now destruct (String.eqb key key').
    + rewrite IH. destruct (String.eqb k key') eqn:E'; [ | reflexivity ].
      apply String.eqb_eq in E'. subst k. now rewrite String.eqb_sym, E.
Qed.

Lemma collect_NoDup (entries : list (string * JSON))
    (dataset : Loader.PricingDataset) :
  NoDup (Dict.keys dataset) ->
  NoDup (Dict.keys (Loader.collect entries dataset)).
Proof.
  revert dataset.
  induction entries as [|[name data] rest IH]; intros dataset Hnd;
    [ exact Hnd | ].
  rewrite collect_cons.
  destruct (if Schema.isObject data then Schema.modelPricingSchema data
            else None) as [record|]; apply IH; [ | exact Hnd ].
  now apply Dict_set_NoDup.
Qed.

(** X15.  Whatever the loader reads, the dataset it returns holds each
    model name once, also when the parsed entries repeat a name. *)
Theorem loaded_dataset_keys_distinct (env : Loader.Env)
    (dataset : Loader.PricingDataset) :
  Loader.loadLocalPricingDataset env = Normal dataset ->
  NoDup (Dict.keys dataset).
Proof.
  unfold Loader.loadLocalPricingDataset, Loader.loadBody.
  assert (Hempty : NoDup (Dict.keys Loader.createPricingDataset))
    by constructor.
  assert (Hdone : forall d : Loader.PricingDataset,
             NoDup (Dict.keys d) -> Normal d = Normal dataset ->
             NoDup (Dict.keys dataset)).
  { intros d Hd H. inversion H. now subst. }
  destruct (Loader.currentModuleDir env) as [dir|e];
    [ | now apply Hdone ].
  destruct (Loader.cwd env) as [workingDir|e]; [ | now apply Hdone ].
  destruct (Loader.readFirst _ _) as [raw|]; [ | now apply Hdone ].
  destruct (Loader.trimsToEmpty raw); [ now apply Hdone | ].
  destruct (Loader.JSON_parse env raw) as [json|]; [ | now apply Hdone ].
  destruct (Loader.Object_entries json) as [entries|e];
    [ | now apply Hdone ].
  apply Hdone. now apply collect_NoDup.
Qed.

Lemma loaded_dataset_keys_distinct_witness :
  NoDup (Dict.keys [("gpt-5"%string, Fixture.gpt5)]).
Proof.
  apply (@loaded_dataset_keys_distinct Fixture.sourceEnv). reflexivity.
Defined.

(** X16.  Once both directories are known, the copy of the pricing file
    next to the module takes precedence: when it can be read, which
    directory is the working directory and what it holds are irrelevant to
    the result; when it cannot, the copy in the working directory decides.
    When [cwd()] throws, the dataset is empty even though the copy next to
    the module could be read. *)
Theorem module_copy_takes_precedence :
  (forall env1 env2 dir workingDir1 workingDir2 raw,
      Loader.currentModuleDir env1 = Normal dir ->
      Loader.currentModuleDir env2 = Normal dir ->
      Loader.cwd env1 = Normal workingDir1 ->
      Loader.cwd env2 = Normal workingDir2 ->
      Loader.readFileSync env1
        (Loader.join dir "model_prices_and_context_window.json") = Some raw ->
      Loader.readFileSync env2
        (Loader.join dir "model_prices_and_context_window.json") = Some raw ->
      Loader.JSON_parse env1 raw = Loader.JSON_parse env2 raw ->
      Loader.loadLocalPricingDataset env1 = Loader.loadLocalPricingDataset env2)
  /\ (forall env1 env2 dir1 dir2 workingDir1 workingDir2 raw,
         Loader.currentModuleDir env1 = Normal dir1 ->
         Loader.currentModuleDir env2 = Normal dir2 ->
         Loader.cwd env1 = Normal workingDir1 ->
         Loader.cwd env2 = Normal workingDir2 ->
         Loader.readFileSync env1
           (Loader.join dir1 "model_prices_and_context_window.json") = None ->
         Loader.readFileSync env2
           (Loader.join dir2 "model_prices_and_context_window.json") = None ->
         Loader.readFileSync env1
           (Loader.join workingDir1 "model_prices_and_context_window.json")
         = Some raw ->
         Loader.readFileSync env2
           (Loader.join workingDir2 "model_prices_and_context_window.json")
         = Some raw ->
         Loader.JSON_parse env1 raw = Loader.JSON_parse env2 raw ->
         Loader.loadLocalPricingDataset env1
         = Loader.loadLocalPricingDataset env2)
  /\ (forall env e,
         Loader.cwd env = Throw e ->
         Loader.loadLocalPricingDataset env = Normal []).
Proof.
  split; [ | split ].
  - intros env1 env2 dir wd1 wd2 raw Hd1 Hd2 Hw1 Hw2 Hr1 Hr2 Hparse.
    unfold Loader.loadLocalPricingDataset, Loader.loadBody.
    rewrite Hd1, Hd2, Hw1, Hw2. simpl. now rewrite Hr1, Hr2, Hparse.
  - intros env1 env2 dir1 dir2 wd1 wd2 raw
           Hd1 Hd2 Hw1 Hw2 Hn1 Hn2 Hr1 Hr2 Hparse.
    unfold Loader.loadLocalPricingDataset, Loader.loadBody.
    rewrite Hd1, Hd2, Hw1, Hw2. simpl. now rewrite Hn1, Hn2, Hr1, Hr2, Hparse.
  - intros env e Hcwd.
    unfold Loader.loadLocalPricingDataset, Loader.loadBody.
    rewrite Hcwd. now destruct (Loader.currentModuleDir env).
Qed.

Lemma module_copy_takes_precedence_witness :
  Loader.loadLocalPricingDataset
    (Loader.mkEnv (Normal "/app/dist"%string) (Normal "/home/user"%string)
       (fun path =>
          if String.eqb path "/app/dist/model_prices_and_context_window.json"
          then Some "{ three entries }"%string
          else Some "{ stale copy }"%string)
       (fun raw =>
          if String.eqb raw "{ three entries }"
          then Some (JObject Fixture.parsedSource)
          else Some (JObject [])))
  = Loader.loadLocalPricingDataset
      (Loader.mkEnv (Normal "/app/dist"%string) (Normal "/tmp"%string)
         (fun path =>
            if String.eqb path "/app/dist/model_prices_and_context_window.json"
            then Some "{ three entries }"%string
            else None)
         (fun raw =>
            if String.eqb raw "{ three entries }"
            then Some (JObject Fixture.parsedSource)
            else None))
  /\ Loader.loadLocalPricingDataset
       (Loader.mkEnv (Normal "/app/dist"%string)
          (Throw "ENOENT: uv_cwd"%string)
          (fun _ => Some "{ three entries }"%string)
          (fun _ => Some (JObject Fixture.parsedSource)))
     = Normal [].
Proof.
  destruct module_copy_takes_precedence as (Hmodule & _ & Hgone).
  split.
  - apply (Hmodule _ _ "/app/dist"%string "/home/user"%string "/tmp"%string
                   "{ three entries }"%string);
      reflexivity.
  - apply (Hgone _ "ENOENT: uv_cwd"%string). reflexivity.
Defined.

(** X17.  Validation reads the declared keys only: two objects that agree
    on every key declared by [modelPricingSchema] validate alike, whatever
    other keys they carry. *)
Theorem schema_reads_declared_keys_only
    (fields1 fields2 : list (string * JSON)) :
  (forall key, In key declaredKeys ->
               Dict.get fields1 key = Dict.get fields2 key) ->
  Schema.modelPricingSchema (JObject fields1)
  = Schema.modelPricingSchema (JObject fields2).
Proof.
  intro Hagree.
  unfold Schema.modelPricingSchema, Schema.optional, Schema.entry.
  cbn [Schema.isObject].
  rewrite !Hagree by (unfold declaredKeys, numericKeys; simpl; tauto).
  reflexivity.
Qed.

Lemma schema_reads_declared_keys_only_witness :
  Schema.modelPricingSchema Fixture.wellFormed
  = Schema.modelPricingSchema
      (JObject [ ("mode"%string, JString "chat");
                 ("cache_read_input_token_cost"%string, JNumber 1.25e-7);
                 ("input_cost_per_token"%string, JNumber 1.25e-6);
                 ("output_cost_per_token"%string, JNumber 1e-5) ]).
Proof.
  apply schema_reads_declared_keys_only.
  intros key Hkey. unfold declaredKeys, numericKeys in Hkey. simpl in Hkey.
  repeat (destruct Hkey as [<- | Hkey]; [ reflexivity | ]).
  destruct Hkey.
Defined.

(** X18.  One wrong type spoils the entry: when a key declared as a number
    holds anything but a number ([null] included), or [tiered_pricing] holds
    anything but an array, the object fails validation, so the loader skips
    the entry. *)
Theorem schema_rejects_wrong_type (fields : list (string * JSON))
    (key : string) (value : JSON) :
  Dict.get fields key = Some value ->
  (In key numericKeys /\ Schema.number value = None)
  \/ (key = "tiered_pricing"%string /\ forall items, value <> JArray items) ->
  Schema.modelPricingSchema (JObject fields) = None
  /\ forall name rest dataset,
       Loader.collect ((name, JObject fields) :: rest) dataset
       = Loader.collect rest dataset.
Proof.
  intros Hget Hbad.
  assert (Hnone : Schema.modelPricingSchema (JObject fields) = None).
  { unfold Schema.modelPricingSchema. cbn [Schema.isObject].
    destruct Hbad as [[Hkey Hnum] | [-> Harr]].
    - assert (Hopt : Schema.optional Schema.number (JObject fields) key = None).
      { unfold Schema.optional, Schema.entry. now rewrite Hget, Hnum. }
      unfold numericKeys in Hkey. simpl in Hkey.
      repeat (destruct Hkey as [<- | Hkey];
              [ repeat match goal with
                       | |- Schema.bind ?x _ = None =>
                           destruct x eqn:?; simpl;
                           [ | reflexivity ]
                       end; congruence | ]).
      destruct Hkey.
    - assert (Hopt : Schema.optional (Schema.array Schema.tier)
                       (JObject fields) "tiered_pricing" = None).
      { unfold Schema.optional, Schema.entry. rewrite Hget.
        destruct value; try reflexivity. now destruct (Harr items). }
      repeat match goal with
             | |- Schema.bind ?x _ = None =>
                 destruct x eqn:?; simpl; [ | reflexivity ]
             end.
      congruence. }
  split; [ exact Hnone | ].
  intros name rest dataset. rewrite collect_cons.
  cbn [Schema.isObject]. now rewrite Hnone.
Qed.

Lemma schema_rejects_wrong_type_witness :
  Schema.modelPricingSchema Fixture.wrongTyped = None
  /\ Schema.modelPricingSchema
       (JObject [ ("input_cost_per_token"%string, JNumber 1e-6);
                  ("tiered_pricing"%string, JString "none") ]) = None.
Proof.
  split.
  - apply (@schema_rejects_wrong_type
             [ ("input_cost_per_token"%string, JString "1.25e-6");
               ("output_cost_per_token"%string, JNull) ]
             "output_cost_per_token"%string JNull eq_refl).
    left. split; [ | reflexivity ].
    unfold numericKeys. simpl. tauto.
  - apply (@schema_rejects_wrong_type
             [ ("input_cost_per_token"%string, JNumber 1e-6);
               ("tiered_pricing"%string, JString "none") ]
             "tiered_pricing"%string (JString "none") eq_refl).
    right. split; [ reflexivity | discriminate ].
Defined.

Lemma filterInto_filter (entries : list (string * ModelPricing))
    (predicate : string -> ModelPricing -> bool)
    (filtered : Loader.PricingDataset) :
  NoDup (Dict.keys filtered ++ map fst entries) ->
  Loader.filterInto entries predicate filtered
  = filtered ++ filter (keeps predicate) entries.
Proof.
  revert filtered.
  induction entries as [|[name pricing] rest IH]; intros filtered Hnd; simpl.
  - now rewrite app_nil_r.
  - simpl in Hnd.
    pose proof (NoDup_remove_1 _ _ _ Hnd) as Hrest.
    pose proof (NoDup_remove_2 _ _ _ Hnd) as Hfresh.
    unfold keeps at 1. simpl.
    destruct (predicate name pricing).
    + rewrite Dict_set_fresh
        by (intro Hin; apply Hfresh; apply in_or_app; now left).
      rewrite IH.
      * now rewrite <- app_assoc.
      * rewrite keys_app, <- app_assoc. exact Hnd.
    + now apply IH.
Qed.

(** X19.  On a dataset with distinct model names, [filterPricingDataset]
    keeps exactly the entries that satisfy the predicate, unchanged and in
    their order; the result again has distinct names, and filtering it a
    second time with the same predicate changes nothing. *)
Theorem filterPricingDataset_keeps_matching
    (dataset : Loader.PricingDataset)
    (predicate : string -> ModelPricing -> bool) :
  NoDup (Dict.keys dataset) ->
  let filtered := Loader.filterPricingDataset dataset predicate in
  filtered = filter (keeps predicate) dataset
  /\ (forall name pricing,
         In (name, pricing) filtered
         <-> In (name, pricing) dataset /\ predicate name pricing = true)
  /\ NoDup (Dict.keys filtered)
  /\ Loader.filterPricingDataset filtered predicate = filtered.
Proof.
  intros Hnd filtered.
  assert (Heq : filtered = filter (keeps predicate) dataset).
  { subst filtered. unfold Loader.filterPricingDataset.
    now rewrite filterInto_filter. }
  assert (Hkeys : NoDup (Dict.keys (filter (keeps predicate) dataset))).
  { clear Heq filtered. unfold Dict.keys.
    induction dataset as [|[k v] rest IH]; simpl; [ constructor | ].
    inversion Hnd as [|? ? Hnotin Hrest]; subst.
    destruct (keeps predicate (k, v)); simpl; [ | now apply IH ].
    constructor; [ | now apply IH ].
    intro Hin. apply Hnotin.
    apply in_map_iff in Hin. destruct Hin as ([k' v'] & Hk & Hin).
    apply filter_In in Hin. apply in_map_iff. exists (k', v'). tauto. }
  rewrite Heq. split; [ reflexivity | split; [ | split ] ].
  - intros name pricing. rewrite filter_In. reflexivity.
  - exact Hkeys.
  - unfold Loader.filterPricingDataset.
    rewrite filterInto_filter by exact Hkeys. simpl.
    clear. induction dataset as [|kv rest IH]; simpl; [ reflexivity | ].
    destruct (keeps predicate kv) eqn:E; simpl; [ | exact IH ].
    now rewrite E, IH.
Qed.

Lemma filterPricingDataset_keeps_matching_witness :
  Loader.filterPricingDataset
    [ ("gpt-5"%string, Fixture.gpt5);
      ("kat-coder-pro-v1"%string, Fixture.katCoderPro);
      ("empty-tiers"%string, Fixture.emptyTiers) ]
    (fun _ pricing => notNull (tiered_pricing pricing))
  = [ ("kat-coder-pro-v1"%string, Fixture.katCoderPro);
      ("empty-tiers"%string, Fixture.emptyTiers) ].
Proof.
  refine (proj1 (@filterPricingDataset_keeps_matching
                   [ ("gpt-5"%string, Fixture.gpt5);
                     ("kat-coder-pro-v1"%string, Fixture.katCoderPro);
                     ("empty-tiers"%string, Fixture.emptyTiers) ]
                   (fun _ pricing => notNull (tiered_pricing pricing)) _)).
  repeat constructor; simpl; intuition discriminate.
Defined.

Lemma Object_define_get (V : Type) (o : Dict.t V) (key key' : string)
    (value : V) :
  existsb (String.eqb key) (Dict.keys o) = false ->
  Dict.get (Object_define o key value) key'
  = if String.eqb key key' then Some value else Dict.get o key'.
Proof.
  induction o as [|[k v] rest IH]; simpl; intro Hfresh.
  - reflexivity.
  - apply orb_false_iff in Hfresh. destruct Hfresh as [Hk Hrest].
    destruct (enumeratesBefore (arrayIndex key) (arrayIndex k)); simpl.
    + reflexivity.
    + rewrite IH by exact Hrest.
      destruct (String.eqb k key') eqn:E'; [ | reflexivity ].
      apply String.eqb_eq in E'. subst k. now rewrite Hk.
Qed.

Lemma Object_set_get (V : Type) (o : Dict.t V) (key key' : string)
    (value : V) :
  Dict.get (Object_set o key value) key'
  = if String.eqb key key' then Some value else Dict.get o key'.
Proof.
  unfold Object_set.
  destruct (existsb (String.eqb key) (Dict.keys o)) eqn:E.
  - apply Dict_get_set.
  - now apply Object_define_get.
Qed.

Lemma Object_spread_get (V : Type) (a b : Dict.t V) (key : string) :
  NoDup (Dict.keys b) ->
  Dict.get (Object_spread a b) key
  = match Dict.get b key with
    | Some v => Some v
    | None => Dict.get a key
    end.
Proof.
  unfold Object_spread. revert a.
  induction b as [|[k v] rest IH]; intros a Hnd; simpl; [ reflexivity | ].
  inversion Hnd as [|? ? Hnotin Hrest]; subst.
  rewrite IH by exact Hrest. rewrite Object_set_get.
  destruct (String.eqb k key) eqn:E; [ | reflexivity ].
  apply String.eqb_eq in E. subst k.
  destruct (Dict.get rest key) as [v'|] eqn:Hget; [ | reflexivity ].
  exfalso. apply Hnotin. apply Dict_get_In in Hget.
  apply in_map_iff. now exists (key, v').
Qed.

(** X20.  In the record merged by [prefetchCcusagePricing], a model name
    that several sources define takes the entry of the later source: Kat
    over GLM over Claude; a name of one source only keeps its entry. *)
Theorem prefetchCcusagePricing_later_source_wins
    (claudePricing glmPricing katPricing : Dict.t ModelPricing)
    (key : string) :
  NoDup (Dict.keys claudePricing) ->
  NoDup (Dict.keys glmPricing) ->
  NoDup (Dict.keys katPricing) ->
  Dict.get (Ccusage.prefetchCcusagePricing claudePricing glmPricing katPricing)
           key
  = match Dict.get katPricing key with
    | Some v => Some v
    | None =>
        match Dict.get glmPricing key with
        | Some v => Some v
        | None => Dict.get claudePricing key
        end
    end.
Proof.
  intros Hc Hg Hk. unfold Ccusage.prefetchCcusagePricing.
  rewrite !Object_spread_get by assumption.
  simpl. now destruct (Dict.get claudePricing key).
Qed.

Lemma prefetchCcusagePricing_later_source_wins_witness :
  Dict.get
    (Ccusage.prefetchCcusagePricing
       [ ("glm-4.5"%string, emptyPricing); ("claude-4"%string, Fixture.gpt5) ]
       [ ("glm-4.5"%string, Fixture.katCoderPro) ]
       [])
    "glm-4.5"
  = Some Fixture.katCoderPro.
Proof.
  rewrite (@prefetchCcusagePricing_later_source_wins
             [ ("glm-4.5"%string, emptyPricing); ("claude-4"%string, Fixture.gpt5) ]
             [ ("glm-4.5"%string, Fixture.katCoderPro) ]
             [] "glm-4.5"%string).
  - reflexivity.
  - repeat constructor; simpl; intuition discriminate.
  - repeat constructor; simpl; intuition discriminate.
  - constructor.
Defined.

(** ** The codex pricing source *)



(** ** The opencode cost helper *)

(** X22.  Alias resolution is settled in one step: the name that
    [resolveModelName] returns resolves to itself, so no alias points to
    another alias. *)
Theorem resolveModelName_idempotent (model name : string) :
  OpenCode.resolveModelName model = Some name ->
  OpenCode.resolveModelName name = Some name.
Proof.
  unfold OpenCode.resolveModelName at 1.
  destruct (Dict.get OpenCode.MODEL_ALIASES model) as [alias|] eqn:Halias.
  - intro H. inversion H; subst alias. clear H.
    apply Dict_get_In in Halias. simpl in Halias.
    destruct Halias as [H | [H | []]]; inversion H; reflexivity.
  - destruct (existsb (String.eqb model) OpenCode.Object_prototype_keys) eqn:E;
      [ discriminate | ].
    intro H. inversion H; subst name.
    unfold OpenCode.resolveModelName. now rewrite Halias, E.
Qed.

Lemma resolveModelName_idempotent_witness :
  OpenCode.resolveModelName "gemini-3-pro-preview" = Some "gemini-3-pro-preview"%string.
Proof.
  apply (@resolveModelName_idempotent "gemini-3-pro-high"%string). reflexivity.
Defined.

(** X23.  For a model name that is not a property of [Object.prototype],
    [calculateCostForEntry] always yields a number: the cost of the record
    resolved for the aliased name, with all four token counts, and 0 when
    the load fails or when no record resolves. *)
Theorem calculateCostForEntry_zero_fallback
    (entry : OpenCode.LoadedUsageEntry) (f : PricingFetcher) :
  existsb (String.eqb (OpenCode.model entry)) OpenCode.Object_prototype_keys
  = false ->
  exists modelName f',
    OpenCode.resolveModelName (OpenCode.model entry) = Some modelName
    /\ OpenCode.calculateCostForEntry entry f
       = Some (if String.eqb modelName "" then 0
               else match fst (getModelPricing f modelName) with
                    | Success (Some pricing) =>
                        calculateCostFromPricing
                          (mkTokens (OpenCode.inputTokens entry)
                                    (OpenCode.outputTokens entry)
                                    (Some (OpenCode.cacheCreationTokens entry))
                                    (Some (OpenCode.cacheReadTokens entry)))
                          pricing
                    | Success None => 0
                    | Failure _ => 0
                    end,
               f').
Proof.
  intro Hproto.
  assert (Hname : exists modelName,
             OpenCode.resolveModelName (OpenCode.model entry) = Some modelName).
  { unfold OpenCode.resolveModelName. rewrite Hproto.
    destruct (Dict.get OpenCode.MODEL_ALIASES (OpenCode.model entry)); eauto. }
  destruct Hname as [modelName Hname].
  unfold OpenCode.calculateCostForEntry. rewrite Hname.
  unfold calculateCostFromTokens.
  destruct (String.eqb modelName "") eqn:E.
  - exists modelName, f. rewrite E. split; reflexivity.
  - destruct (getModelPricing f modelName) as [[[pricing|]|e] f''] eqn:G;
      exists modelName, f''; rewrite E, G; split; reflexivity.
Qed.

Lemma calculateCostForEntry_zero_fallback_witness :
  exists modelName f',
    OpenCode.resolveModelName "gemini-3-pro-high" = Some modelName
    /\ OpenCode.calculateCostForEntry
         (OpenCode.mkEntry 0 "ses_1" "gemini-3-pro-high" "google"
                           1000 500 0 200 0)
         (newPricingFetcher (fun _ => Rejected "ENOENT") None)
       = Some (if String.eqb modelName "" then 0
               else match fst (getModelPricing
                                 (newPricingFetcher
                                    (fun _ => Rejected "ENOENT") None)
                                 modelName) with
                    | Success (Some pricing) =>
                        calculateCostFromPricing
                          (mkTokens 1000 500 (Some 0) (Some 200)) pricing
                    | Success None => 0
                    | Failure _ => 0
                    end,
               f').
Proof.
  apply (@calculateCostForEntry_zero_fallback
           (OpenCode.mkEntry 0 "ses_1" "gemini-3-pro-high" "google"
                             1000 500 0 200 0)
           (newPricingFetcher (fun _ => Rejected "ENOENT") None)).
  reflexivity.
Defined.
